(** * ssh3: the channel-request codec ([src/message/channel_request.go])

    A shallow embedding of the envelope [ChannelRequestMessage], of the nine
    payload structs behind the [ChannelRequest] interface and of the decoder
    registry [ChannelRequestParseFuncs], followed by the properties of the
    specification that concern them.

    Conventions of the embedding:
    - a Go [[]byte] is a [list byte]; a write through a slice [buf[k:]] is
      spliced back into the enclosing buffer ([on_slice]), since both share
      one backing array;
    - a Go [string] is a [string] (a sequence of 8-bit characters), so a
      multi-byte UTF-8 sequence is simply several characters;
    - a [uint64] is an [N]; a Go [int] that counts bytes is a [nat];
    - a method returning [(n int, err error)] returns a [written] record
      that also carries the buffer after the call; a run-time panic is the
      [Panic] outcome of [run];
    - an [io.Reader] is a reader over bytes in memory: those not yet read,
      and whether it is itself buffered; decoders thread it explicitly and
      hand it back in the state they leave it in. *)

From Stdlib Require Import List NArith Lia String Ascii Bool.
From Stdlib.Strings Require Import Byte.
From stdpp Require Import gmap strings.
Import ListNotations.
Open Scope string_scope.
Open Scope nat_scope.
Open Scope list_scope.

(** ** Bytes and big-endian integers *)

(** Go's conversion [byte(n)]: the low eight bits. *)
Definition byte_of_N (n : N) : byte :=
  match Byte.of_N (N.land n 255) with
  | Some b => b
  | None => x00
  end.

(** [k] bytes of [n], most significant first. *)
Fixpoint be_bytes (k : nat) (n : N) : list byte :=
  match k with
  | O => []
  | S k' => byte_of_N (N.shiftr n (8 * N.of_nat k')) :: be_bytes k' n
  end.

(** The number a big-endian byte sequence denotes. *)
Definition be_value (bs : list byte) : N :=
  fold_left (fun acc b => N.lor (N.shiftl acc 8) (Byte.to_N b)) bs 0%N.

(** ** Errors and outcomes *)

Inductive error : Type :=
| io_EOF                      (* io.EOF *)
| bufio_ErrAdvanceTooFar      (* bufio.ErrAdvanceTooFar *)
| Truncated                   (* util: fewer bytes than a field needs *)
| Overflow                    (* util: value outside the varint range *)
| BufferTooSmall              (* util: target slice shorter than the field *)
| Errorf_buffer_too_small (have want : nat)        (* fmt.Errorf, Write *)
| Errorf_invalid_request_type (requestType : string) (* fmt.Errorf, Parse *)
| errors_New (msg : string).                       (* errors.New *)

(** A call either returns or panics. *)
Inductive run (A : Type) : Type :=
| Return (a : A)
| Panic (e : error).
Arguments Return {A} a.
Arguments Panic {A} e.

Definition run_bind {A B} (m : run A) (k : A -> run B) : run B :=
  match m with
  | Return a => k a
  | Panic e => Panic e
  end.

Notation "x <~ m ; k" := (run_bind m (fun x => k))
  (at level 100, m at next level, right associativity, only parsing).

(** The result pair [(n int, err error)] of a Go write, together with the
    buffer as the call leaves it. *)
Record written : Type := Written {
  count : nat;
  failure : option error;
  mem : list byte
}.

(** The result pair [(value, err error)] of a Go decoder. *)
Inductive result (A : Type) : Type :=
| Ok (a : A)
| Err (e : error).
Arguments Ok {A} a.
Arguments Err {A} e.

(** ** Slices *)

(** [buf[i] = b]; an index out of range panics. *)
Definition store (buf : list byte) (i : nat) (b : byte) : run (list byte) :=
  if i <? length buf then Return (firstn i buf ++ b :: skipn (S i) buf)
  else Panic (errors_New "index out of range").

(** The builtin [copy(dst, src)]: the count copied and [dst] afterwards. *)
Definition copy (dst src : list byte) : nat * list byte :=
  let n := Nat.min (length dst) (length src) in
  (n, firstn n src ++ skipn n dst).

(** A write [w] applied to the slice [buf[from:]]: the bytes before [from]
    are out of its reach, those after are the slice it sees.  Slicing past
    the end panics. *)
Definition on_slice (from : nat) (w : list byte -> run written)
    (buf : list byte) : run written :=
  if from <=? length buf then
    r <~ w (skipn from buf);
    Return (Written (count r) (failure r) (firstn from buf ++ mem r))
  else Panic (errors_New "slice bounds out of range").

(** ** Readers *)

(** An [io.Reader] over bytes held in memory.  [buffered] records whether
    the reader handed in is itself a [*bufio.Reader] of at least the default
    size, the one case in which [bufio.NewReader] returns its argument. *)
Record io_Reader : Type := Reader {
  unread : list byte;
  buffered : bool
}.

Definition bytes_NewReader (bs : list byte) : io_Reader := Reader bs false.

Definition drain (r : io_Reader) : io_Reader := Reader [] (buffered r).
Definition advance (n : nat) (r : io_Reader) : io_Reader :=
  Reader (skipn n (unread r)) (buffered r).

(** A decoder over a reader state [S]. *)
Definition decoder (S A : Type) : Type := S -> result A * S.

Definition dec_ret {S A} (a : A) : decoder S A := fun s => (Ok a, s).
Definition dec_fail {S A} (e : error) : decoder S A := fun s => (Err e, s).
Definition dec_bind {S A B} (m : decoder S A) (k : A -> decoder S B)
    : decoder S B :=
  fun s => match m s with
           | (Ok a, s') => k a s'
           | (Err e, s') => (Err e, s')
           end.

Notation "x <- m ;; k" := (dec_bind m (fun x => k))
  (at level 100, m at next level, right associativity, only parsing).

(** [binary.Read(buf, binary.BigEndian, &b)] for [b] a [bool]: one byte is
    read in full ([io.EOF] when there is none) and the flag is set to
    [byte != 0], as the package documents. *)
Definition binary_Read_bool : decoder io_Reader bool := fun r =>
  match unread r with
  | [] => (Err io_EOF, r)
  | b :: _ => (Ok (negb (N.eqb (Byte.to_N b) 0)), advance 1 r)
  end.

(** [bufio.defaultBufSize]. *)
Definition defaultBufSize : nat := 4096.

(** A [*bufio.Reader]: the bytes it has taken from the reader beneath it
    and not yet delivered, and that reader. *)
Record bufio_Reader : Type := BufReader {
  held : list byte;
  rd : io_Reader
}.

(** [bufio.NewReader(rd)]: nothing is read yet. *)
Definition bufio_NewReader (r : io_Reader) : bufio_Reader := BufReader [] r.

(** The method [ReadByte] of [bufio.Reader].  When nothing is held, one [Read] of up to
    [defaultBufSize] bytes refills from the reader beneath, which thereby
    loses them all; when [bufio.NewReader] returned its argument, that
    reader is read directly. *)
Definition ReadByte : decoder bufio_Reader byte := fun b =>
  match held b with
  | x :: xs => (Ok x, BufReader xs (rd b))
  | [] =>
      if buffered (rd b) then
        match unread (rd b) with
        | [] => (Err io_EOF, b)
        | x :: _ => (Ok x, BufReader [] (advance 1 (rd b)))
        end
      else
        match firstn defaultBufSize (unread (rd b)) with
        | [] => (Err io_EOF, b)
        | x :: xs => (Ok x, BufReader xs (advance defaultBufSize (rd b)))
        end
  end.

(** A block of reads through [byteReader := bufio.NewReader(buf)], after
    which [buf] is what the wrapper left of it. *)
Definition with_bufio {A} (m : decoder bufio_Reader A) : decoder io_Reader A :=
  fun buf => let (a, byteReader) := m (bufio_NewReader buf) in (a, rd byteReader).

(** ** The primitives of package [util] *)

Module util.

(** Modelled from the spec: [util.SSHStringLen] is not among the sources; a
    length-prefixed byte string is a 4-byte length followed by the bytes. *)
Definition SSHStringLen (s : string) : nat := 4 + String.length s.

(** Modelled from the spec: [util.WriteSSHString] is not among the sources;
    it writes the 4-byte big-endian unsigned length, then the raw bytes, and
    reports the count; a target too short is an encode failure and leaves
    the target alone. *)
Definition WriteSSHString (s : string) (buf : list byte) : run written :=
  if length buf <? SSHStringLen s then Return (Written 0 (Some BufferTooSmall) buf)
  else Return (Written (SSHStringLen s) None
                 (be_bytes 4 (N.of_nat (String.length s)) ++ list_byte_of_string s
                    ++ skipn (SSHStringLen s) buf)).

(** Modelled from the spec: [util.ParseSSHString] is not among the sources;
    decoding fails as truncated when the length field cannot be read or
    fewer bytes remain than it declares.  A failed read has used up what
    there was. *)
Definition ParseSSHString : decoder io_Reader string := fun r =>
  match unread r with
  | b0 :: b1 :: b2 :: b3 :: rest =>
      let n := be_value [b0; b1; b2; b3] in
      if (N.of_nat (length rest) <? n)%N then (Err Truncated, drain r)
      else (Ok (string_of_list_byte (firstn (N.to_nat n) rest)),
            advance (4 + N.to_nat n) r)
  | _ => (Err Truncated, drain r)
  end.

(** Modelled from the spec: [util.VarIntLen] is not among the sources; the
    width is 1, 2, 4 or 8 bytes for the ranges below 2^6, 2^14, 2^30 and
    2^62.  The call sites take a single result, so a value outside the
    range cannot be reported as an error value and surfaces as a panic. *)
Definition VarIntLen (i : N) : run N :=
  if (i <? 2 ^ 6)%N then Return 1%N
  else if (i <? 2 ^ 14)%N then Return 2%N
  else if (i <? 2 ^ 30)%N then Return 4%N
  else if (i <? 2 ^ 62)%N then Return 8%N
  else Panic Overflow.

(** Modelled from the spec: [util.AppendVarInt] is not among the sources;
    it returns [b] extended by the encoding of [i], whose first byte
    carries the width class in its two high bits.  The slice handed in is
    a value: the caller sees growth only through the result. *)
Definition AppendVarInt (b : list byte) (i : N) : run (list byte) :=
  if (i <? 2 ^ 6)%N then Return (b ++ be_bytes 1 i)
  else if (i <? 2 ^ 14)%N then Return (b ++ be_bytes 2 (N.lor i (N.shiftl 1 14)))
  else if (i <? 2 ^ 30)%N then Return (b ++ be_bytes 4 (N.lor i (N.shiftl 2 30)))
  else if (i <? 2 ^ 62)%N then Return (b ++ be_bytes 8 (N.lor i (N.shiftl 3 62)))
  else Panic Overflow.

(** [k] further bytes from the byte reader. *)
Fixpoint read_bytes (k : nat) : decoder bufio_Reader (list byte) :=
  match k with
  | O => dec_ret []
  | S k' => fun b =>
      match ReadByte b with
      | (Ok x, b') =>
          match read_bytes k' b' with
          | (Ok xs, b'') => (Ok (x :: xs), b'')
          | (Err e, b'') => (Err e, b'')
          end
      | (Err _, b') => (Err Truncated, b')
      end
  end.

(** Modelled from the spec: [util.ReadVarInt] is not among the sources; the
    two high bits of the first byte select the width, the remaining bits
    and bytes are the value, and too few bytes is a truncation. *)
Definition ReadVarInt : decoder bufio_Reader N :=
  first <- read_bytes 1 ;;
  let b0 := be_value first in
  rest <- read_bytes (Nat.pow 2 (N.to_nat (N.shiftr b0 6)) - 1) ;;
  dec_ret (be_value (byte_of_N (N.land b0 63) :: rest)).

End util.

(** Modelled from the spec: the constant [SSH_MSG_CHANNEL_REQUEST] is
    declared outside the sources; the message type of a channel request is
    98. *)
Definition SSH_MSG_CHANNEL_REQUEST : byte := byte_of_N 98.

(** ** The payload structs and their methods *)

(** The loop [for _, attr := range vals { util.AppendVarInt(attrs, attr) }]:
    each call's result is dropped, so [attrs] is after the loop what it was
    before it. *)
Fixpoint range_AppendVarInt (attrs : list byte) (vals : list N) : run (list byte) :=
  match vals with
  | [] => Return attrs
  | attr :: vals' => _ <~ util.AppendVarInt attrs attr; range_AppendVarInt attrs vals'
  end.

Module PtyRequest.

Record t : Type := Build {
  Term : string;
  CharWidth : N;
  CharHeight : N;
  PixelWidth : N;
  PixelHeight : N;
  EncodedTerminalModes : string
}.

Definition Length (r : t) : run nat :=
  w <~ util.VarIntLen (CharWidth r);
  h <~ util.VarIntLen (CharHeight r);
  pw <~ util.VarIntLen (PixelWidth r);
  ph <~ util.VarIntLen (PixelHeight r);
  Return (util.SSHStringLen (Term r) + N.to_nat w + N.to_nat h + N.to_nat pw
          + N.to_nat ph + util.SSHStringLen (EncodedTerminalModes r)).

Definition RequestTypeStr (r : t) : string := "pty-req".

Definition Write (r : t) (buf : list byte) : run written :=
  len <~ Length r;
  if length buf <? len then
    Return (Written 0 (Some (errors_New "buffer too small to write PTY request")) buf)
  else
    let consumed := 0 in
    w <~ util.WriteSSHString (Term r) buf;
    match failure w with
    | Some e => Return (Written 0 (Some e) (mem w))
    | None =>
        let consumed := consumed + count w in
        let buf := mem w in
        attrs <~ range_AppendVarInt []
                   [CharWidth r; CharHeight r; PixelWidth r; PixelHeight r];
        c <~ on_slice consumed
               (fun dst => let (n, dst') := copy dst attrs in
                           Return (Written n None dst')) buf;
        let consumed := consumed + count c in
        let buf := mem c in
        w <~ on_slice consumed (util.WriteSSHString (EncodedTerminalModes r)) buf;
        match failure w with
        | Some e => Return (Written 0 (Some e) (mem w))
        | None => Return (Written (consumed + count w) None (mem w))
        end
    end.

End PtyRequest.

Module X11Request.

Record t : Type := Build {
  SingleConnection : bool;
  X11AuthenticationProtocol : string;
  X11AuthenticationCookie : string;
  X11ScreenNumber : N
}.

Definition Length (r : t) : run nat :=
  n <~ util.VarIntLen (X11ScreenNumber r);
  Return (1 + util.SSHStringLen (X11AuthenticationProtocol r)
          + util.SSHStringLen (X11AuthenticationCookie r) + N.to_nat n).

Definition RequestTypeStr (r : t) : string := "x11-req".

Definition Write (r : t) (buf : list byte) : run written :=
  len <~ Length r;
  if length buf <? len then
    Return (Written 0 (Some (errors_New "buffer too small to write X11 request")) buf)
  else
    let consumed := 0 in
    buf <~ (if SingleConnection r then store buf 0 (byte_of_N 1)
            else store buf 0 (byte_of_N 0));
    let consumed := consumed + 1 in
    w <~ on_slice consumed (util.WriteSSHString (X11AuthenticationProtocol r)) buf;
    match failure w with
    | Some e => Return (Written 0 (Some e) (mem w))
    | None =>
        let consumed := consumed + count w in
        let buf := mem w in
        w <~ on_slice consumed (util.WriteSSHString (X11AuthenticationCookie r)) buf;
        match failure w with
        | Some e => Return (Written 0 (Some e) (mem w))
        | None =>
            let consumed := consumed + count w in
            let buf := mem w in
            screenNumberBuf <~ util.AppendVarInt [] (X11ScreenNumber r);
            c <~ on_slice consumed
                   (fun dst => let (n, dst') := copy dst screenNumberBuf in
                               Return (Written n None dst')) buf;
            Return (Written (consumed + count c) None (mem c))
        end
    end.

End X11Request.

Module ShellRequest.

Record t : Type := Build { }.

Definition Length (r : t) : run nat := Return 0.
Definition RequestTypeStr (r : t) : string := "shell".
Definition Write (r : t) (buf : list byte) : run written :=
  Return (Written 0 None buf).

End ShellRequest.

Module ExecRequest.

Record t : Type := Build { Command : string }.

Definition Length (r : t) : run nat := Return (util.SSHStringLen (Command r)).
Definition RequestTypeStr (r : t) : string := "exec".
Definition Write (r : t) (buf : list byte) : run written :=
  util.WriteSSHString (Command r) buf.

End ExecRequest.

Module SubsystemRequest.

Record t : Type := Build { SubsystemName : string }.

Definition Length (r : t) : run nat := Return (util.SSHStringLen (SubsystemName r)).
Definition RequestTypeStr (r : t) : string := "subsystem".
Definition Write (r : t) (buf : list byte) : run written :=
  util.WriteSSHString (SubsystemName r) buf.

End SubsystemRequest.

Module WindowChangeRequest.

Record t : Type := Build {
  CharWidth : N;
  CharHeight : N;
  PixelWidth : N;
  PixelHeight : N
}.

Definition Length (r : t) : run nat :=
  w <~ util.VarIntLen (CharWidth r);
  h <~ util.VarIntLen (CharHeight r);
  pw <~ util.VarIntLen (PixelWidth r);
  ph <~ util.VarIntLen (PixelHeight r);
  Return (N.to_nat w + N.to_nat h + N.to_nat pw + N.to_nat ph).

Definition RequestTypeStr (r : t) : string := "window-change".

Definition Write (r : t) (buf : list byte) : run written :=
  len <~ Length r;
  if length buf <? len then
    Return (Written 0 (Some (errors_New "buffer too small to write PTY request")) buf)
  else
    let consumed := 0 in
    attrs <~ range_AppendVarInt []
               [CharWidth r; CharHeight r; PixelWidth r; PixelHeight r];
    c <~ on_slice consumed
           (fun dst => let (n, dst') := copy dst attrs in
                       Return (Written n None dst')) buf;
    Return (Written (consumed + count c) None (mem c)).

End WindowChangeRequest.

Module SignalRequest.

Record t : Type := Build { SignalNameWithoutSig : string }.

Definition Length (r : t) : run nat :=
  Return (util.SSHStringLen (SignalNameWithoutSig r)).
Definition RequestTypeStr (r : t) : string := "signal".
Definition Write (r : t) (buf : list byte) : run written :=
  util.WriteSSHString (SignalNameWithoutSig r) buf.

End SignalRequest.

Module ExitStatusRequest.

Record t : Type := Build { exitStatus : N }.

Definition Length (r : t) : run nat :=
  n <~ util.VarIntLen (exitStatus r); Return (N.to_nat n).

Definition RequestTypeStr (r : t) : string := "signal".

Definition Write (r : t) (buf : list byte) : run written :=
  len <~ Length r;
  if length buf <? len then
    Return (Written 0 (Some (errors_New "buffer too small to write PTY request")) buf)
  else
    attrBuf <~ util.AppendVarInt [] (exitStatus r);
    let (n, buf') := copy buf attrBuf in
    Return (Written n None buf').

End ExitStatusRequest.

Module ExitSignalRequest.

Record t : Type := Build {
  SignalNameWithoutSig : string;
  CoreDumped : bool;
  ErrorMessageUTF8 : string;
  LanguageTag : string
}.

Definition Length (r : t) : run nat :=
  Return (util.SSHStringLen (SignalNameWithoutSig r) + 1
          + util.SSHStringLen (ErrorMessageUTF8 r)
          + util.SSHStringLen (LanguageTag r)).

Definition RequestTypeStr (r : t) : string := "exit-signal".

Definition Write (r : t) (buf : list byte) : run written :=
  len <~ Length r;
  if length buf <? len then
    Return (Written 0 (Some (errors_New "buffer too small to write PTY request")) buf)
  else
    let consumed := 0 in
    w <~ util.WriteSSHString (SignalNameWithoutSig r) buf;
    match failure w with
    | Some e => Return (Written 0 (Some e) (mem w))
    | None =>
        let consumed := consumed + count w in
        let buf := mem w in
        buf <~ (if CoreDumped r then store buf consumed (byte_of_N 1)
                else store buf consumed (byte_of_N 0));
        let consumed := consumed + 1 in
        w <~ util.WriteSSHString (ErrorMessageUTF8 r) buf;
        match failure w with
        | Some e => Return (Written 0 (Some e) (mem w))
        | None =>
            let consumed := consumed + count w in
            let buf := mem w in
            w <~ util.WriteSSHString (LanguageTag r) buf;
            match failure w with
            | Some e => Return (Written 0 (Some e) (mem w))
            | None => Return (Written (consumed + count w) None (mem w))
            end
        end
    end.

End ExitSignalRequest.

(** ** The interface [ChannelRequest] *)

(** A value of the interface is one of the nine structs; a method call on
    it dispatches on which. *)
Module ChannelRequest.

Inductive t : Type :=
| Pty (r : PtyRequest.t)
| X11 (r : X11Request.t)
| Shell (r : ShellRequest.t)
| Exec (r : ExecRequest.t)
| Subsystem (r : SubsystemRequest.t)
| WindowChange (r : WindowChangeRequest.t)
| Signal (r : SignalRequest.t)
| ExitStatus (r : ExitStatusRequest.t)
| ExitSignal (r : ExitSignalRequest.t).

Definition Write (c : t) (buf : list byte) : run written :=
  match c with
  | Pty r => PtyRequest.Write r buf
  | X11 r => X11Request.Write r buf
  | Shell r => ShellRequest.Write r buf
  | Exec r => ExecRequest.Write r buf
  | Subsystem r => SubsystemRequest.Write r buf
  | WindowChange r => WindowChangeRequest.Write r buf
  | Signal r => SignalRequest.Write r buf
  | ExitStatus r => ExitStatusRequest.Write r buf
  | ExitSignal r => ExitSignalRequest.Write r buf
  end.

Definition Length (c : t) : run nat :=
  match c with
  | Pty r => PtyRequest.Length r
  | X11 r => X11Request.Length r
  | Shell r => ShellRequest.Length r
  | Exec r => ExecRequest.Length r
  | Subsystem r => SubsystemRequest.Length r
  | WindowChange r => WindowChangeRequest.Length r
  | Signal r => SignalRequest.Length r
  | ExitStatus r => ExitStatusRequest.Length r
  | ExitSignal r => ExitSignalRequest.Length r
  end.

Definition RequestTypeStr (c : t) : string :=
  match c with
  | Pty r => PtyRequest.RequestTypeStr r
  | X11 r => X11Request.RequestTypeStr r
  | Shell r => ShellRequest.RequestTypeStr r
  | Exec r => ExecRequest.RequestTypeStr r
  | Subsystem r => SubsystemRequest.RequestTypeStr r
  | WindowChange r => WindowChangeRequest.RequestTypeStr r
  | Signal r => SignalRequest.RequestTypeStr r
  | ExitStatus r => ExitStatusRequest.RequestTypeStr r
  | ExitSignal r => ExitSignalRequest.RequestTypeStr r
  end.

End ChannelRequest.

Export ChannelRequest(t(..)).

(** ** The payload decoders *)

Definition ParsePtyRequest : decoder io_Reader ChannelRequest.t :=
  term <- util.ParseSSHString ;;
  attrs <- with_bufio
    (charWidth <- util.ReadVarInt ;;
     charHeight <- util.ReadVarInt ;;
     pixelWidth <- util.ReadVarInt ;;
     pixelHeight <- util.ReadVarInt ;;
     dec_ret (charWidth, charHeight, pixelWidth, pixelHeight)) ;;
  encodedTerminalModes <- util.ParseSSHString ;;
  let '(charWidth, charHeight, pixelWidth, pixelHeight) := attrs in
  dec_ret (Pty (PtyRequest.Build term charWidth charHeight pixelWidth pixelHeight
                  encodedTerminalModes)).

Definition ParseX11Request : decoder io_Reader ChannelRequest.t :=
  singleConnection <- binary_Read_bool ;;
  x11AuthenticationProtocol <- util.ParseSSHString ;;
  x11AuthenticationCookie <- util.ParseSSHString ;;
  x11ScreenNumber <- with_bufio util.ReadVarInt ;;
  dec_ret (X11 (X11Request.Build singleConnection x11AuthenticationProtocol
                  x11AuthenticationCookie x11ScreenNumber)).

Definition ParseShellRequest : decoder io_Reader ChannelRequest.t :=
  dec_ret (Shell ShellRequest.Build).

(** [v, err := util.ParseSSHString(buf); if err != nil { return nil,
    bufio.ErrAdvanceTooFar }]: whatever the failure was, the caller is told
    [bufio.ErrAdvanceTooFar]. *)
Definition ParseSSHString_or_ErrAdvanceTooFar : decoder io_Reader string :=
  fun buf => match util.ParseSSHString buf with
             | (Ok s, buf') => (Ok s, buf')
             | (Err _, buf') => (Err bufio_ErrAdvanceTooFar, buf')
             end.

Definition ParseExecRequest : decoder io_Reader ChannelRequest.t :=
  command <- ParseSSHString_or_ErrAdvanceTooFar ;;
  dec_ret (Exec (ExecRequest.Build command)).

Definition ParseSubsystemRequest : decoder io_Reader ChannelRequest.t :=
  subsystemName <- ParseSSHString_or_ErrAdvanceTooFar ;;
  dec_ret (Subsystem (SubsystemRequest.Build subsystemName)).

Definition ParseWindowChangeRequest : decoder io_Reader ChannelRequest.t :=
  with_bufio
    (charWidth <- util.ReadVarInt ;;
     charHeight <- util.ReadVarInt ;;
     pixelWidth <- util.ReadVarInt ;;
     pixelHeight <- util.ReadVarInt ;;
     dec_ret (WindowChange (WindowChangeRequest.Build charWidth charHeight
                              pixelWidth pixelHeight))).

Definition ParseSignalRequest : decoder io_Reader ChannelRequest.t :=
  signalNameWithoutSig <- ParseSSHString_or_ErrAdvanceTooFar ;;
  dec_ret (Signal (SignalRequest.Build signalNameWithoutSig)).

Definition ParseExitStatusRequest : decoder io_Reader ChannelRequest.t :=
  with_bufio
    (exitStatus <- util.ReadVarInt ;;
     dec_ret (ExitStatus (ExitStatusRequest.Build exitStatus))).

Definition ParseExitSignalRequest : decoder io_Reader ChannelRequest.t :=
  signalNameWithoutSig <- ParseSSHString_or_ErrAdvanceTooFar ;;
  coreDumped <- binary_Read_bool ;;
  errorMessageUTF8 <- ParseSSHString_or_ErrAdvanceTooFar ;;
  languageTag <- ParseSSHString_or_ErrAdvanceTooFar ;;
  dec_ret (ExitSignal (ExitSignalRequest.Build signalNameWithoutSig coreDumped
                         errorMessageUTF8 languageTag)).

(** ** The registry *)

Definition ChannelRequestParseFuncs : gmap string (decoder io_Reader ChannelRequest.t) :=
  list_to_map [
    ("pty-req", ParsePtyRequest);
    ("x11-req", ParseX11Request);
    ("shell", ParseShellRequest);
    ("exec", ParseExecRequest);
    ("subsystem", ParseSubsystemRequest);
    ("window-change", ParseWindowChangeRequest);
    ("signal", ParseSignalRequest)
  ].

(** ** The envelope *)

Module ChannelRequestMessage.

(** [request] is the embedded [ChannelRequest] field. *)
Record t : Type := Build {
  wantReply : bool;
  request : ChannelRequest.t
}.

Definition Length (m : t) : run nat :=
  n <~ ChannelRequest.Length (request m);
  Return (1 + util.SSHStringLen (ChannelRequest.RequestTypeStr (request m)) + 1 + n).

Definition Write (m : t) (buf : list byte) : run written :=
  len <~ Length m;
  if length buf <? len then
    Return (Written 0 (Some (Errorf_buffer_too_small (length buf) len)) buf)
  else
    let consumed := 0 in
    buf <~ store buf 0 SSH_MSG_CHANNEL_REQUEST;
    let consumed := consumed + 1 in
    w <~ on_slice consumed (util.WriteSSHString (ChannelRequest.RequestTypeStr (request m))) buf;
    match failure w with
    | Some e => Return (Written 0 (Some e) (mem w))
    | None =>
        let consumed := consumed + count w in
        let buf := mem w in
        buf <~ (if wantReply m then store buf consumed (byte_of_N 1)
                else store buf consumed (byte_of_N 0));
        let consumed := consumed + 1 in
        w <~ on_slice consumed (ChannelRequest.Write (request m)) buf;
        match failure w with
        | Some e => Return (Written 0 (Some e) (mem w))
        | None => Return (Written (consumed + count w) None (mem w))
        end
    end.

End ChannelRequestMessage.

(** The buffer points to the request-type attribute. *)
Definition ParseRequestMessage : decoder io_Reader ChannelRequestMessage.t :=
  requestType <- util.ParseSSHString ;;
  wantReply <- binary_Read_bool ;;
  match ChannelRequestParseFuncs !! requestType with
  | None => dec_fail (Errorf_invalid_request_type requestType)
  | Some parseFunc =>
      channelRequest <- parseFunc ;;
      dec_ret (ChannelRequestMessage.Build wantReply channelRequest)
  end.

(** [buf := make([]byte, n)]: a fresh buffer of [n] zero bytes. *)
Definition make (n : nat) : list byte := repeat (byte_of_N 0) n.

(** ** Encoding into a fresh buffer, as a caller does *)

(** [buf := make([]byte, c.Length()); n, err := c.Write(buf)]: the bytes
    [buf[:n]] the write reports, or its error. *)
Definition encode (c : ChannelRequest.t) : run (result (list byte)) :=
  len <~ ChannelRequest.Length c;
  w <~ ChannelRequest.Write c (make len);
  match failure w with
  | Some e => Return (Err e)
  | None => Return (Ok (firstn (count w) (mem w)))
  end.

(** The decoder written for each struct. *)
Definition decoder_of (c : ChannelRequest.t) : decoder io_Reader ChannelRequest.t :=
  match c with
  | Pty _ => ParsePtyRequest
  | X11 _ => ParseX11Request
  | Shell _ => ParseShellRequest
  | Exec _ => ParseExecRequest
  | Subsystem _ => ParseSubsystemRequest
  | WindowChange _ => ParseWindowChangeRequest
  | Signal _ => ParseSignalRequest
  | ExitStatus _ => ParseExitStatusRequest
  | ExitSignal _ => ParseExitSignalRequest
  end.

(** [decode(write(v))]: encode, then decode the bytes from a reader over
    them. *)
Definition roundtrip (c : ChannelRequest.t) : run (result ChannelRequest.t) :=
  bs <~ encode c;
  match bs with
  | Err e => Return (Err e)
  | Ok bs => Return (fst (decoder_of c (bytes_NewReader bs)))
  end.

(** ** Sample values *)

Definition window_80_24 : WindowChangeRequest.t :=
  WindowChangeRequest.Build 80 24 640 480.

Definition pty_xterm : PtyRequest.t :=
  PtyRequest.Build "xterm" 80 24 640 480 "".

Definition exit_signal_KILL : ExitSignalRequest.t :=
  ExitSignalRequest.Build "KILL" true "killed" "en".

Definition exec_ls : ChannelRequestMessage.t :=
  ChannelRequestMessage.Build true (Exec (ExecRequest.Build "ls -la")).

(** The wire image of [exec_ls]: message type 98, the tag, the reply byte,
    the command. *)
Definition exec_ls_wire : list byte :=
  [x62;
   x00; x00; x00; x04; x65; x78; x65; x63;
   x01;
   x00; x00; x00; x06; x6c; x73; x20; x2d; x6c; x61].

(** A stream that holds the tag "frobnicate" and ends there. *)
Definition frobnicate_only : io_Reader :=
  bytes_NewReader (be_bytes 4 10 ++ list_byte_of_string "frobnicate").

(** An envelope on the wire for the tag "exit-status": reply byte 0 and the
    one-byte varint 0. *)
Definition exit_status_stream : io_Reader :=
  bytes_NewReader (be_bytes 4 11 ++ list_byte_of_string "exit-status" ++ [x00; x00]).

(** An envelope on the wire for the tag "exec" whose command claims ten
    bytes and brings three. *)
Definition exec_truncated_stream : io_Reader :=
  bytes_NewReader (be_bytes 4 4 ++ list_byte_of_string "exec" ++ [x01]
                     ++ be_bytes 4 10 ++ list_byte_of_string "ls ").

(** What a pty request for "xterm", 80 x 24, 640 x 480 and no modes should
    look like on the wire: the name, the four varints, the empty modes. *)
Definition pty_xterm_wire : list byte :=
  be_bytes 4 5 ++ list_byte_of_string "xterm"
    ++ [x40; x50; x18; x42; x80; x41; xe0]
    ++ be_bytes 4 0.

(** ** Vocabulary of the properties *)

(** The flag a byte decodes to. *)
Definition nonzero (b : byte) : bool := negb (N.eqb (Byte.to_N b) 0).

(** [frame p buf buf']: [buf'] is [buf] overwritten somewhere below
    position [p]; the length and every byte from [p] on are unchanged. *)
Definition frame (p : nat) (buf buf' : list byte) : Prop :=
  length buf' = length buf /\ skipn p buf' = skipn p buf.

(** The structs whose [Write] runs the loop that drops the varints. *)
Definition drops_varints (c : ChannelRequest.t) : bool :=
  match c with
  | Pty _ | WindowChange _ => true
  | _ => false
  end.

(** The structs made of nothing but at most one string. *)
Definition single_string (c : ChannelRequest.t) : option string :=
  match c with
  | Shell _ => Some ""
  | Exec r => Some (ExecRequest.Command r)
  | Subsystem r => Some (SubsystemRequest.SubsystemName r)
  | Signal r => Some (SignalRequest.SignalNameWithoutSig r)
  | _ => None
  end.

(** What a byte reader will still deliver: the bytes it holds, then those
    of the reader beneath. *)
Definition pending (b : bufio_Reader) : list byte := held b ++ unread (rd b).

(** The wire image of a string. *)
Definition wire_string (s : string) : list byte :=
  be_bytes 4 (N.of_nat (String.length s)) ++ list_byte_of_string s.

(** A buffer whose first bytes are [img] and whose others are still those
    of [buf]. *)
Definition filled (img buf : list byte) : list byte := img ++ skipn (length img) buf.

(** The wire image of an X11 request. *)
Definition X11_image (r : X11Request.t) (enc : list byte) : list byte :=
  (([if X11Request.SingleConnection r then byte_of_N 1 else byte_of_N 0]
      ++ wire_string (X11Request.X11AuthenticationProtocol r))
     ++ wire_string (X11Request.X11AuthenticationCookie r)) ++ enc.

(** The tags the registry has an entry for. *)
Definition registered_tags : list string :=
  ["pty-req"; "x11-req"; "shell"; "exec"; "subsystem"; "window-change"; "signal"].

(** A string whose length fits the four-byte prefix. *)
Definition short (s : string) : Prop := (N.of_nat (String.length s) < 2 ^ 32)%N.

(** The flag byte a writer stores. *)
Definition flag_byte (b : bool) : byte := if b then byte_of_N 1 else byte_of_N 0.

(** What [PtyRequest.Write] leaves at the start of the buffer: the two
    strings, next to one another. *)
Definition PtyRequest_written (r : PtyRequest.t) : list byte :=
  wire_string (PtyRequest.Term r) ++ wire_string (PtyRequest.EncodedTerminalModes r).

(** What [ParsePtyRequest] reads: the name, four varints, the modes. *)
Definition PtyRequest_layout (term : string) (e1 e2 e3 e4 : list byte)
    (modes : string) : list byte :=
  wire_string term ++ (e1 ++ e2 ++ e3 ++ e4) ++ wire_string modes.

(** What [ParseExitSignalRequest] reads: the name, the flag, the message,
    the language tag. *)
Definition ExitSignalRequest_layout (r : ExitSignalRequest.t) : list byte :=
  wire_string (ExitSignalRequest.SignalNameWithoutSig r)
    ++ [flag_byte (ExitSignalRequest.CoreDumped r)]
    ++ wire_string (ExitSignalRequest.ErrorMessageUTF8 r)
    ++ wire_string (ExitSignalRequest.LanguageTag r).

(** What [ExitSignalRequest.Write] leaves in the buffer: the name and the
    flag, then the message laid over them from position 0, then the
    language tag laid over that. *)
Definition ExitSignalRequest_written (r : ExitSignalRequest.t) (buf : list byte)
    : list byte :=
  filled (wire_string (ExitSignalRequest.LanguageTag r))
    (filled (wire_string (ExitSignalRequest.ErrorMessageUTF8 r))
       (filled (wire_string (ExitSignalRequest.SignalNameWithoutSig r)
                  ++ [flag_byte (ExitSignalRequest.CoreDumped r)]) buf)).

(** The envelope written into a fresh buffer of the length it reports, then
    decoded from the request-type attribute onward, as the decoder expects. *)
Definition envelope_roundtrip (m : ChannelRequestMessage.t)
    : run (result ChannelRequestMessage.t) :=
  len <~ ChannelRequestMessage.Length m;
  w <~ ChannelRequestMessage.Write m (make len);
  match failure w with
  | Some e => Return (Err e)
  | None =>
      Return (fst (ParseRequestMessage
                     (bytes_NewReader (skipn 1 (firstn (count w) (mem w))))))
  end.

(** A byte reader that is the reader handed in: it holds nothing of its own
    and reads straight from a buffered reader. *)
Definition direct (b : bufio_Reader) : Prop :=
  held b = [] /\ buffered (rd b) = true.

(** A byte reader over a plain reader of at most one buffer's worth: what
    it holds, if anything, is all there was. *)
Definition small_plain (b : bufio_Reader) : Prop :=
  buffered (rd b) = false
  /\ length (unread (rd b)) <= defaultBufSize
  /\ (held b <> [] -> unread (rd b) = []).

(** A byte reader whose plain reader beneath has nothing left. *)
Definition spent (b : bufio_Reader) : Prop :=
  buffered (rd b) = false /\ unread (rd b) = [].

(** The requests an envelope carries both ways, with field values the
    wire format can hold: strings shorter than 2^32 bytes, a screen number
    below 2^62. *)
Definition carried (c : ChannelRequest.t) : Prop :=
  match c with
  | Shell _ => True
  | Exec r => short (ExecRequest.Command r)
  | Subsystem r => short (SubsystemRequest.SubsystemName r)
  | Signal r => short (SignalRequest.SignalNameWithoutSig r)
  | X11 r => short (X11Request.X11AuthenticationProtocol r)
             /\ short (X11Request.X11AuthenticationCookie r)
             /\ (X11Request.X11ScreenNumber r < 2 ^ 62)%N
  | _ => False
  end.

(** * Properties *)

(** ** Proof steps *)

Ltac step_write :=
  match goal with
  | |- context [run_bind ?m _] =>
      let E := fresh "E" in destruct m eqn:E; cbn [run_bind]; [|discriminate]
  | |- context [match failure ?w with _ => _ end] =>
      let E := fresh "E" in destruct (failure w) eqn:E
  | |- context [if ?c then _ else _] =>
      let E := fresh "E" in destruct c eqn:E
  end.

Ltac case_on_slice w H :=
  match goal with
  | |- context [on_slice ?from ?f ?b] =>
      destruct (on_slice from f b) as [w|] eqn:H; cbn [run_bind]; [|discriminate]
  end.

Ltac case_failure w H :=
  destruct (failure w) eqn:H;
  [ let E := fresh in let F := fresh in
    intros E F; inversion E; subst; discriminate |].

(** ** Big-endian bytes *)

Lemma to_N_byte_of_N (n : N) : Byte.to_N (byte_of_N n) = (n mod 2 ^ 8)%N.
Proof.
  unfold byte_of_N. change 255%N with (N.ones 8). rewrite N.land_ones.
  assert (Hlt : (n mod 2 ^ 8 < 256)%N) by (apply N.mod_upper_bound; discriminate).
  pose proof (Byte.to_of_N_option_map (n mod 2 ^ 8)) as Hmap.
  destruct (Byte.of_N (n mod 2 ^ 8)) as [b|] eqn:Hb.
  - now apply Byte.to_of_N.
  - replace (n mod 2 ^ 8 <=? 255)%N with true in Hmap; [discriminate|].
    symmetry. apply N.leb_le. lia.
Qed.

Lemma length_be_bytes (k : nat) (n : N) : length (be_bytes k n) = k.
Proof. induction k; simpl; congruence. Qed.

(** Folding the bytes of [n] onto an accumulator shifts it up and puts the
    low [8 * k] bits of [n] beneath. *)
Lemma fold_be_bytes (k : nat) (n acc : N) :
  fold_left (fun a b => N.lor (N.shiftl a 8) (Byte.to_N b)) (be_bytes k n) acc
  = N.lor (N.shiftl acc (8 * N.of_nat k)) (n mod 2 ^ (8 * N.of_nat k))%N.
Proof.
  revert acc. induction k as [|k IH]; intros acc.
  - simpl. now rewrite N.shiftl_0_r, N.mod_1_r, N.lor_0_r.
  - cbn [be_bytes fold_left]. rewrite IH, to_N_byte_of_N.
    apply N.bits_inj. intros i.
    rewrite !N.lor_spec.
    destruct (N.ltb_spec i (8 * N.of_nat k)) as [Hlo|Hhi].
    + rewrite !N.shiftl_spec_low by lia.
      rewrite !N.mod_pow2_bits_low by lia. reflexivity.
    + rewrite (N.mod_pow2_bits_high n (8 * N.of_nat k)) by lia.
      rewrite (N.shiftl_spec_high' _ (8 * N.of_nat k)) by lia.
      rewrite N.lor_spec, !orb_false_r.
      destruct (N.ltb_spec (i - 8 * N.of_nat k) 8) as [Hin|Hout].
      * rewrite !N.shiftl_spec_low by lia.
        rewrite !N.mod_pow2_bits_low by lia.
        rewrite N.shiftr_spec'. cbn [orb]. f_equal. lia.
      * rewrite !N.shiftl_spec_high' by lia.
        rewrite !N.mod_pow2_bits_high by lia.
        rewrite !orb_false_r. f_equal. lia.
Qed.

Lemma be_value_be_bytes (k : nat) (n : N) :
  (n < 2 ^ (8 * N.of_nat k))%N -> be_value (be_bytes k n) = n.
Proof.
  intros Hn. unfold be_value. rewrite fold_be_bytes.
  now rewrite N.shiftl_0_l, N.lor_0_l, N.mod_small.
Qed.

(** ** What a write touches *)

Lemma frame_refl (p : nat) (buf : list byte) : frame p buf buf.
Proof. split; reflexivity. Qed.

Lemma skipn_more {A} (p q : nat) (l l' : list A) :
  p <= q -> skipn p l = skipn p l' -> skipn q l = skipn q l'.
Proof.
  intros Hpq H. replace q with ((q - p) + p) by lia.
  rewrite <- !skipn_skipn. now rewrite H.
Qed.

Lemma frame_weaken (p q : nat) (buf buf' : list byte) :
  p <= q -> frame p buf buf' -> frame q buf buf'.
Proof. intros Hpq [Hl Hs]. split; [exact Hl | now apply (skipn_more p q)]. Qed.

Lemma frame_trans (p : nat) (a b c : list byte) :
  frame p a b -> frame p b c -> frame p a c.
Proof. intros [Hl1 Hs1] [Hl2 Hs2]. split; congruence. Qed.

Lemma store_inv (buf buf' : list byte) (i : nat) (b : byte) :
  store buf i b = Return buf' ->
  i < length buf /\ buf' = firstn i buf ++ b :: skipn (S i) buf.
Proof.
  unfold store. destruct (Nat.ltb_spec i (length buf)) as [Hi|Hi]; [|discriminate].
  intros H. inversion H. auto.
Qed.

Lemma frame_store (buf buf' : list byte) (i : nat) (b : byte) :
  store buf i b = Return buf' -> frame (S i) buf buf'.
Proof.
  intros H. apply store_inv in H as [Hi ->]. split.
  - rewrite length_app. cbn [length]. rewrite length_firstn, length_skipn. lia.
  - assert (Hlen : length (firstn i buf ++ [b]) = S i).
    { rewrite length_app, length_firstn. cbn [length]. lia. }
    change (firstn i buf ++ b :: skipn (S i) buf)
      with (firstn i buf ++ [b] ++ skipn (S i) buf).
    rewrite app_assoc. rewrite <- Hlen at 1. now rewrite drop_app_length.
Qed.

Lemma on_slice_inv (from : nat) (f : list byte -> run written)
    (buf : list byte) (w : written) :
  on_slice from f buf = Return w ->
  from <= length buf
  /\ exists r, f (skipn from buf) = Return r
               /\ count w = count r /\ failure w = failure r
               /\ mem w = firstn from buf ++ mem r.
Proof.
  unfold on_slice.
  destruct (Nat.leb_spec from (length buf)) as [Hfrom|Hfrom]; [|discriminate].
  destruct (f (skipn from buf)) as [r|]; cbn [run_bind]; [|discriminate].
  intros H. inversion H. split; [assumption|]. exists r. auto.
Qed.

Lemma frame_on_slice (from p : nat) (buf inner : list byte) :
  from <= length buf ->
  frame p (skipn from buf) inner ->
  frame (from + p) buf (firstn from buf ++ inner).
Proof.
  intros Hfrom [Hl Hs]. split.
  - rewrite length_app, length_firstn, Hl, length_skipn. lia.
  - assert (Hlen : length (firstn from buf) = from)
      by (rewrite length_firstn; lia).
    rewrite Nat.add_comm, <- !skipn_skipn.
    rewrite <- Hlen at 1. now rewrite drop_app_length, Hs.
Qed.

Lemma copy_fits (dst src : list byte) :
  length src <= length dst ->
  copy dst src = (length src, src ++ skipn (length src) dst).
Proof.
  intros H. unfold copy. rewrite Nat.min_r by exact H. now rewrite firstn_all.
Qed.

Lemma frame_copy (dst src : list byte) :
  length src <= length dst ->
  frame (length src) dst (src ++ skipn (length src) dst).
Proof.
  intros H. split.
  - rewrite length_app, length_skipn. lia.
  - now rewrite drop_app_length.
Qed.

(** ** Length-prefixed strings *)

(** A stream that starts with four bytes denoting the length of [body],
    then [body], decodes to [body] and is left at what follows. *)
Lemma ParseSSHString_prefix (b0 b1 b2 b3 : byte) (body rest : list byte) (k : bool) :
  be_value [b0; b1; b2; b3] = N.of_nat (length body) ->
  util.ParseSSHString (Reader (b0 :: b1 :: b2 :: b3 :: body ++ rest) k)
  = (Ok (string_of_list_byte body), Reader rest k).
Proof.
  intros Hlen. unfold util.ParseSSHString. cbn [unread]. rewrite Hlen.
  assert (Hge : (N.of_nat (length (body ++ rest)) <? N.of_nat (length body))%N = false).
  { apply N.ltb_ge. rewrite length_app. lia. }
  rewrite Hge, Nat2N.id. unfold advance. cbn [unread buffered].
  rewrite firstn_app, Nat.sub_diag, firstn_all, firstn_O, app_nil_r.
  do 2 f_equal.
  change (skipn (4 + length body) (b0 :: b1 :: b2 :: b3 :: body ++ rest))
    with (skipn (length body) (body ++ rest)).
  now rewrite skipn_app, Nat.sub_diag, skipn_all, skipn_O.
Qed.

Lemma length_list_byte_of_string (s : string) :
  length (list_byte_of_string s) = String.length s.
Proof.
  unfold list_byte_of_string. rewrite length_map.
  induction s as [|a s IH]; cbn [list_ascii_of_string length String.length]; congruence.
Qed.

Lemma WriteSSHString_inv (s : string) (buf : list byte) (w : written) :
  util.WriteSSHString s buf = Return w ->
  failure w = None ->
  util.SSHStringLen s <= length buf
  /\ count w = util.SSHStringLen s
  /\ mem w = be_bytes 4 (N.of_nat (String.length s)) ++ list_byte_of_string s
               ++ skipn (util.SSHStringLen s) buf.
Proof.
  unfold util.WriteSSHString.
  destruct (Nat.ltb_spec (length buf) (util.SSHStringLen s)) as [Hlen|Hlen];
    intros H Hf; inversion H; subst; cbn in Hf; [discriminate|].
  cbn [count mem]. auto.
Qed.

Lemma frame_WriteSSHString (s : string) (buf : list byte) (w : written) :
  util.WriteSSHString s buf = Return w ->
  failure w = None ->
  frame (util.SSHStringLen s) buf (mem w).
Proof.
  intros H Hf. destruct (WriteSSHString_inv _ _ _ H Hf) as (Hlen & _ & ->).
  assert (Hwire : length (be_bytes 4 (N.of_nat (String.length s))
                            ++ list_byte_of_string s) = util.SSHStringLen s).
  { rewrite length_app, length_be_bytes, length_list_byte_of_string. reflexivity. }
  rewrite app_assoc. split.
  - rewrite length_app, Hwire, length_skipn. lia.
  - rewrite <- Hwire at 1. now rewrite drop_app_length.
Qed.

(** A string shorter than 2^32 bytes, as [util.WriteSSHString] lays it
    out, is decoded to itself, whatever follows it. *)
Lemma ParseSSHString_wire (s : string) (rest : list byte) (k : bool) :
  (N.of_nat (String.length s) < 2 ^ 32)%N ->
  util.ParseSSHString
    (Reader (be_bytes 4 (N.of_nat (String.length s)) ++ list_byte_of_string s ++ rest) k)
  = (Ok s, Reader rest k).
Proof.
  intros Hlen.
  pose proof (be_value_be_bytes 4 (N.of_nat (String.length s)) Hlen) as Hval.
  cbn [be_bytes] in *. cbn [app].
  rewrite ParseSSHString_prefix.
  - now rewrite string_of_list_byte_of_string.
  - now rewrite length_list_byte_of_string.
Qed.

(** ** Variable-length integers *)

Lemma AppendVarInt_length (b : list byte) (i n : N) :
  util.VarIntLen i = Return n ->
  exists enc, util.AppendVarInt b i = Return (b ++ enc) /\ length enc = N.to_nat n.
Proof.
  unfold util.VarIntLen, util.AppendVarInt.
  repeat match goal with |- context [if ?c then _ else _] => destruct c end;
    intros H; inversion H; subst; eexists; (split; [reflexivity|]);
    apply length_be_bytes.
Qed.

Lemma on_slice_WriteSSHString_inv (from : nat) (s : string) (buf : list byte)
    (w : written) :
  on_slice from (util.WriteSSHString s) buf = Return w ->
  failure w = None ->
  count w = util.SSHStringLen s
  /\ from + util.SSHStringLen s <= length buf
  /\ frame (from + util.SSHStringLen s) buf (mem w).
Proof.
  intros H Hf.
  apply on_slice_inv in H as (Hfrom & r & Hr & Hc & Hfr & Hm).
  rewrite Hfr in Hf.
  destruct (WriteSSHString_inv _ _ _ Hr Hf) as (Hlen & Hcount & _).
  rewrite length_skipn in Hlen.
  split; [congruence|]. split; [lia|].
  rewrite Hm. apply frame_on_slice; [exact Hfrom|].
  now apply frame_WriteSSHString.
Qed.

Lemma on_slice_copy_inv (from : nat) (src buf : list byte) (w : written) :
  on_slice from (fun dst => let (n, dst') := copy dst src in
                            Return (Written n None dst')) buf = Return w ->
  from + length src <= length buf ->
  count w = length src /\ failure w = None
  /\ frame (from + length src) buf (mem w).
Proof.
  intros H Hfit.
  apply on_slice_inv in H as (Hfrom & r & Hr & Hc & Hfr & Hm).
  rewrite copy_fits in Hr by (rewrite length_skipn; lia).
  inversion Hr; subst r. cbn [count failure mem] in *.
  split; [exact Hc|]. split; [exact Hfr|].
  rewrite Hm. apply frame_on_slice; [exact Hfrom|].
  apply frame_copy. rewrite length_skipn. lia.
Qed.

(** ** Variable-length integers: decoding what was encoded *)

Lemma testbit_above (n m j : N) : (n < 2 ^ m)%N -> (m <= j)%N -> N.testbit n j = false.
Proof.
  intros Hn Hj. rewrite <- (N.mod_small n (2 ^ m)) by exact Hn.
  now apply N.mod_pow2_bits_high.
Qed.

(** The encoding of [i] in width class [c], [S w'] bytes wide: the first
    byte carries [c] in its two high bits, and the first byte stripped of
    them followed by the others denotes [i]. *)
Lemma varint_class (w' : nat) (c i : N) :
  (c < 4)%N ->
  (i < 2 ^ (8 * N.of_nat w' + 6))%N ->
  let X := N.lor i (N.shiftl c (8 * N.of_nat w' + 6)) in
  let b0 := (N.shiftr X (8 * N.of_nat w') mod 2 ^ 8)%N in
  N.shiftr b0 6 = c
  /\ be_value (byte_of_N (N.land b0 63) :: be_bytes w' X) = i.
Proof.
  intros Hc Hi X b0. split.
  - apply N.bits_inj. intros j. rewrite N.shiftr_spec'. unfold b0.
    destruct (N.ltb_spec j 2) as [Hj|Hj].
    + rewrite N.mod_pow2_bits_low by lia. rewrite N.shiftr_spec'. unfold X.
      rewrite N.lor_spec, (testbit_above i (8 * N.of_nat w' + 6)) by lia.
      rewrite N.shiftl_spec_high' by lia. cbn [orb]. f_equal. lia.
    + rewrite N.mod_pow2_bits_high by lia.
      symmetry. apply (testbit_above c 2); [exact Hc | exact Hj].
  - unfold be_value. cbn [fold_left]. rewrite fold_be_bytes, to_N_byte_of_N.
    change (N.shiftl 0 8) with 0%N. rewrite N.lor_0_l.
    change 63%N with (N.ones 6). rewrite N.land_ones.
    apply N.bits_inj. intros j. rewrite N.lor_spec.
    destruct (N.ltb_spec j (8 * N.of_nat w')) as [Hlo|Hhi].
    + rewrite N.shiftl_spec_low by lia. rewrite N.mod_pow2_bits_low by lia.
      unfold X. rewrite N.lor_spec, N.shiftl_spec_low by lia.
      now rewrite orb_false_r.
    + rewrite N.shiftl_spec_high' by lia.
      rewrite (N.mod_pow2_bits_high X) by lia. rewrite orb_false_r.
      destruct (N.ltb_spec (j - 8 * N.of_nat w') 6) as [Hin|Hout].
      * rewrite !N.mod_pow2_bits_low by lia. unfold b0.
        rewrite N.mod_pow2_bits_low by lia. rewrite N.shiftr_spec'. unfold X.
        rewrite N.lor_spec, N.shiftl_spec_low by lia.
        rewrite orb_false_r. f_equal. lia.
      * rewrite (testbit_above i (8 * N.of_nat w' + 6)) by lia.
        destruct (N.ltb_spec (j - 8 * N.of_nat w') 8) as [Hin8|Hout8].
        -- rewrite N.mod_pow2_bits_low by lia. now apply N.mod_pow2_bits_high.
        -- now apply N.mod_pow2_bits_high.
Qed.

Lemma ReadByte_pending (b : bufio_Reader) (x : byte) (xs : list byte) :
  pending b = x :: xs ->
  exists b', ReadByte b = (Ok x, b') /\ pending b' = xs.
Proof.
  unfold pending, ReadByte. destruct b as [[|h hs] [bs k]]; cbn [held rd unread buffered].
  - cbn [app]. intros ->. destruct k.
    + eexists. split; [reflexivity|]. reflexivity.
    + change defaultBufSize with (S 4095). cbn [firstn].
      eexists. split; [reflexivity|]. cbn [held rd unread advance skipn].
      apply firstn_skipn.
  - cbn [app]. intros H. inversion H; subst. eexists. split; reflexivity.
Qed.

Lemma read_bytes_pending (n : nat) (b : bufio_Reader) (bs rest : list byte) :
  length bs = n ->
  pending b = bs ++ rest ->
  exists b', util.read_bytes n b = (Ok bs, b') /\ pending b' = rest.
Proof.
  revert b bs. induction n as [|n IH]; intros b bs Hlen Hp.
  - destruct bs; [|discriminate]. exists b. split; [reflexivity | exact Hp].
  - destruct bs as [|x bs]; [discriminate|]. cbn [app] in Hp.
    destruct (ReadByte_pending _ _ _ Hp) as (b1 & Hb1 & Hp1).
    destruct (IH b1 bs ltac:(now inversion Hlen) Hp1) as (b2 & Hb2 & Hp2).
    exists b2. cbn [util.read_bytes]. rewrite Hb1, Hb2. split; [reflexivity | exact Hp2].
Qed.

Lemma be_value_single (x : byte) : be_value [x] = Byte.to_N x.
Proof. unfold be_value. cbn [fold_left]. change (N.shiftl 0 8) with 0%N. apply N.lor_0_l. Qed.

(** Reading a varint from a byte reader whose pending bytes start with the
    encoding of [i] yields [i] and leaves what follows pending. *)
Lemma ReadVarInt_AppendVarInt (i : N) (enc rest : list byte) (b : bufio_Reader) :
  util.AppendVarInt [] i = Return enc ->
  pending b = enc ++ rest ->
  exists b', util.ReadVarInt b = (Ok i, b') /\ pending b' = rest.
Proof.
  assert (Hgen : forall (w' : nat) (c : N),
    (c < 4)%N -> (i < 2 ^ (8 * N.of_nat w' + 6))%N ->
    Nat.pow 2 (N.to_nat c) - 1 = w' ->
    pending b = be_bytes (S w') (N.lor i (N.shiftl c (8 * N.of_nat w' + 6))) ++ rest ->
    exists b', util.ReadVarInt b = (Ok i, b') /\ pending b' = rest).
  { intros w' c Hc Hi Hw Hp. cbn [be_bytes app] in Hp.
    destruct (varint_class w' c i Hc Hi) as [Hclass Hval].
    cbv zeta in Hclass, Hval.
    destruct (read_bytes_pending 1 b [_] _ eq_refl Hp) as (b1 & Hb1 & Hp1).
    destruct (read_bytes_pending w' b1 _ _ (length_be_bytes _ _) Hp1) as (b2 & Hb2 & Hp2).
    exists b2. split; [|exact Hp2].
    unfold util.ReadVarInt, dec_bind, dec_ret. rewrite Hb1.
    rewrite be_value_single, to_N_byte_of_N, Hclass, Hw, Hb2, Hval. reflexivity. }
  unfold util.AppendVarInt. cbn [app].
  destruct (N.ltb_spec i (2 ^ 6)) as [H6|H6].
  { intros H Hp. inversion H; subst enc.
    apply (Hgen 0 0%N); [lia | exact H6 | reflexivity |].
    change (N.shiftl 0 (8 * N.of_nat 0 + 6)) with 0%N. now rewrite N.lor_0_r. }
  destruct (N.ltb_spec i (2 ^ 14)) as [H14|H14].
  { intros H Hp. inversion H; subst enc.
    apply (Hgen 1 1%N); [lia | exact H14 | reflexivity | exact Hp]. }
  destruct (N.ltb_spec i (2 ^ 30)) as [H30|H30].
  { intros H Hp. inversion H; subst enc.
    apply (Hgen 3 2%N); [lia | exact H30 | reflexivity | exact Hp]. }
  destruct (N.ltb_spec i (2 ^ 62)) as [H62|H62]; [|discriminate].
  intros H Hp. inversion H; subst enc.
  apply (Hgen 7 3%N); [lia | exact H62 | reflexivity | exact Hp].
Qed.

(** ** Reading ahead *)

(** [ParsePtyRequest] reads its varints through a fresh [bufio.Reader] and
    then returns to the reader beneath for the terminal modes.  Over a
    plain in-memory reader the wrapper has by then taken every byte with
    it, and the modes are not found; when the reader handed in is itself a
    [bufio.Reader], no wrapper is made and the request is decoded. *)
Example ParsePtyRequest_read_ahead :
  fst (ParsePtyRequest (Reader pty_xterm_wire false)) = Err Truncated
  /\ ParsePtyRequest (Reader (pty_xterm_wire ++ [x07]) true)
     = (Ok (Pty pty_xterm), Reader [x07] true).
Proof. split; reflexivity. Qed.

(** ** The loop that drops its results *)

Lemma range_AppendVarInt_keeps (attrs : list byte) (vals : list N) (out : list byte) :
  range_AppendVarInt attrs vals = Return out -> out = attrs.
Proof.
  induction vals as [|attr vals IH]; simpl.
  - intros H. now inversion H.
  - destruct (util.AppendVarInt attrs attr); simpl; [exact IH | discriminate].
Qed.

Lemma copy_nil (dst : list byte) : copy dst [] = (0, dst).
Proof. unfold copy. now rewrite Nat.min_0_r. Qed.

(** Whatever the four dimensions are, a window-change write that returns
    reports no byte and leaves the buffer as it found it. *)
Lemma WindowChangeRequest_Write_silent (r : WindowChangeRequest.t)
    (buf : list byte) (w : written) :
  WindowChangeRequest.Write r buf = Return w ->
  failure w = None ->
  count w = 0 /\ mem w = buf.
Proof.
  unfold WindowChangeRequest.Write.
  destruct (WindowChangeRequest.Length r) as [len|]; cbn [run_bind]; [|discriminate].
  destruct (length buf <? len).
  - intros H. inversion H; subst. discriminate.
  - match goal with
    | |- context [range_AppendVarInt ?a ?v] =>
        destruct (range_AppendVarInt a v) as [attrs|] eqn:Hattrs
    end; cbn [run_bind]; [|discriminate].
    apply range_AppendVarInt_keeps in Hattrs. subst attrs.
    unfold on_slice. cbn [Nat.leb skipn firstn run_bind]. rewrite copy_nil.
    cbn [run_bind count failure mem app Nat.add].
    intros H _. inversion H; subst. cbn. auto.
Qed.

Lemma VarIntLen_pos (i n : N) : util.VarIntLen i = Return n -> (1 <= n)%N.
Proof.
  unfold util.VarIntLen.
  repeat match goal with |- context [if ?c then _ else _] => destruct c end;
    intros H; inversion H; lia.
Qed.

(** ... while the length it reports beforehand is at least four. *)
Lemma WindowChangeRequest_Length_ge_4 (r : WindowChangeRequest.t) (len : nat) :
  WindowChangeRequest.Length r = Return len -> 4 <= len.
Proof.
  unfold WindowChangeRequest.Length.
  destruct (util.VarIntLen (WindowChangeRequest.CharWidth r)) as [a|] eqn:Ha; simpl; [|discriminate].
  destruct (util.VarIntLen (WindowChangeRequest.CharHeight r)) as [b|] eqn:Hb; simpl; [|discriminate].
  destruct (util.VarIntLen (WindowChangeRequest.PixelWidth r)) as [c|] eqn:Hc; simpl; [|discriminate].
  destruct (util.VarIntLen (WindowChangeRequest.PixelHeight r)) as [d|] eqn:Hd; simpl; [|discriminate].
  apply VarIntLen_pos in Ha, Hb, Hc, Hd.
  intros H. inversion H. lia.
Qed.

(** ** Length exactness, where it holds *)

Lemma string_Write_exact (s : string) (buf : list byte) (w : written) :
  util.WriteSSHString s buf = Return w ->
  failure w = None ->
  count w = util.SSHStringLen s /\ frame (util.SSHStringLen s) buf (mem w).
Proof.
  intros H Hf. split.
  - now destruct (WriteSSHString_inv _ _ _ H Hf) as (_ & ? & _).
  - now apply frame_WriteSSHString.
Qed.

Lemma ExitStatusRequest_Write_exact (r : ExitStatusRequest.t) (buf : list byte)
    (w : written) (len : nat) :
  ExitStatusRequest.Length r = Return len ->
  ExitStatusRequest.Write r buf = Return w ->
  failure w = None ->
  count w = len /\ frame len buf (mem w).
Proof.
  unfold ExitStatusRequest.Write. intros HL. rewrite HL. cbn [run_bind].
  unfold ExitStatusRequest.Length in HL.
  destruct (util.VarIntLen (ExitStatusRequest.exitStatus r)) as [n|] eqn:Hn;
    cbn [run_bind] in HL; [|discriminate].
  inversion HL; subst len.
  destruct (AppendVarInt_length [] _ _ Hn) as (enc & -> & Henc). cbn [app run_bind].
  destruct (Nat.ltb_spec (length buf) (N.to_nat n)) as [Hsmall|Hfit].
  - intros H Hf. inversion H; subst. discriminate.
  - rewrite copy_fits by lia. intros H _. inversion H; subst. cbn [count mem].
    rewrite <- Henc. split; [reflexivity|]. apply frame_copy. lia.
Qed.

Lemma X11Request_Write_exact (r : X11Request.t) (buf : list byte)
    (w : written) (len : nat) :
  X11Request.Length r = Return len ->
  X11Request.Write r buf = Return w ->
  failure w = None ->
  count w = len /\ frame len buf (mem w).
Proof.
  unfold X11Request.Write. intros HL. rewrite HL. cbn [run_bind].
  unfold X11Request.Length in HL.
  destruct (util.VarIntLen (X11Request.X11ScreenNumber r)) as [n|] eqn:Hn;
    cbn [run_bind] in HL; [|discriminate].
  inversion HL; subst len. clear HL.
  destruct (AppendVarInt_length [] _ _ Hn) as (enc & Henc & Hlen).
  match goal with
  | |- context [length buf <? ?n] =>
      destruct (Nat.ltb_spec (length buf) n) as [Hsmall|Hfit]
  end.
  { intros H Hf. inversion H; subst. discriminate. }
  assert (Hstore : exists buf1,
            (if X11Request.SingleConnection r then store buf 0 (byte_of_N 1)
             else store buf 0 (byte_of_N 0)) = Return buf1 /\ frame 1 buf buf1).
  { destruct (X11Request.SingleConnection r);
      (destruct (store buf 0 _) as [buf1|] eqn:Hs;
       [exists buf1; split; [reflexivity | now apply frame_store in Hs]
       | unfold store in Hs; destruct (Nat.ltb_spec 0 (length buf));
         [discriminate | lia]]). }
  destruct Hstore as (buf1 & -> & Hf1). cbn [run_bind].
  case_on_slice w1 H1. case_failure w1 Hfail1.
  destruct (on_slice_WriteSSHString_inv _ _ _ _ H1 Hfail1) as (Hc1 & Hb1 & Hfr1).
  case_on_slice w2 H2. case_failure w2 Hfail2.
  destruct (on_slice_WriteSSHString_inv _ _ _ _ H2 Hfail2) as (Hc2 & Hb2 & Hfr2).
  rewrite Henc. cbn [app run_bind].
  case_on_slice w3 H3.
  destruct Hf1 as [Hl1 Hs1]. pose proof (proj1 Hfr1) as Hl2.
  pose proof (proj1 Hfr2) as Hl3.
  unfold util.SSHStringLen in *.
  destruct (on_slice_copy_inv _ _ _ _ H3) as (Hc3 & _ & Hfr3); [lia|].
  intros H _. inversion H; subst w. cbn [count mem].
  split; [lia|].
  apply frame_trans with buf1; [apply frame_weaken with 1; [lia | now split]|].
  apply frame_trans with (mem w1); [eapply frame_weaken; [|exact Hfr1]; lia|].
  apply frame_trans with (mem w2); [eapply frame_weaken; [|exact Hfr2]; lia|].
  eapply frame_weaken; [|exact Hfr3]. lia.
Qed.

Lemma store_flag (c : bool) (buf : list byte) (i : nat) (w : run (list byte)) :
  (if c then store buf i (byte_of_N 1) else store buf i (byte_of_N 0)) = w ->
  store buf i (if c then byte_of_N 1 else byte_of_N 0) = w.
Proof. now destruct c. Qed.

Lemma ExitSignalRequest_Write_exact (r : ExitSignalRequest.t) (buf : list byte)
    (w : written) (len : nat) :
  ExitSignalRequest.Length r = Return len ->
  ExitSignalRequest.Write r buf = Return w ->
  failure w = None ->
  count w = len /\ frame len buf (mem w).
Proof.
  unfold ExitSignalRequest.Write. intros HL. rewrite HL. cbn [run_bind].
  unfold ExitSignalRequest.Length in HL. inversion HL; subst len. clear HL.
  match goal with
  | |- context [length buf <? ?n] =>
      destruct (Nat.ltb_spec (length buf) n) as [Hsmall|Hfit]
  end.
  { intros H Hf. inversion H; subst. discriminate. }
  destruct (util.WriteSSHString (ExitSignalRequest.SignalNameWithoutSig r) buf)
    as [w1|] eqn:H1; cbn [run_bind]; [|discriminate].
  case_failure w1 Hfail1.
  destruct (string_Write_exact _ _ _ H1 Hfail1) as (Hc1 & Hfr1).
  match goal with
  | |- context [run_bind ?m _] => destruct m as [buf2|] eqn:Hst
  end; cbn [run_bind]; [|discriminate].
  apply store_flag, frame_store in Hst.
  destruct (util.WriteSSHString (ExitSignalRequest.ErrorMessageUTF8 r) buf2)
    as [w2|] eqn:H2; cbn [run_bind]; [|discriminate].
  case_failure w2 Hfail2.
  destruct (string_Write_exact _ _ _ H2 Hfail2) as (Hc2 & Hfr2).
  destruct (util.WriteSSHString (ExitSignalRequest.LanguageTag r) (mem w2))
    as [w3|] eqn:H3; cbn [run_bind]; [|discriminate].
  case_failure w3 Hfail3.
  destruct (string_Write_exact _ _ _ H3 Hfail3) as (Hc3 & Hfr3).
  unfold util.SSHStringLen in *.
  intros H _. inversion H; subst w. cbn [count mem].
  split; [lia|].
  apply frame_trans with (mem w1); [eapply frame_weaken; [|exact Hfr1]; lia|].
  apply frame_trans with buf2; [eapply frame_weaken; [|exact Hst]; lia|].
  apply frame_trans with (mem w2); [eapply frame_weaken; [|exact Hfr2]; lia|].
  eapply frame_weaken; [|exact Hfr3]. lia.
Qed.

(** Whatever its fields, a pty write that succeeds reports the two strings
    only, at least four bytes short of what [Length] reported. *)
Lemma PtyRequest_Write_short (r : PtyRequest.t) (buf : list byte)
    (w : written) (len : nat) :
  PtyRequest.Length r = Return len ->
  PtyRequest.Write r buf = Return w ->
  failure w = None ->
  count w = util.SSHStringLen (PtyRequest.Term r)
            + util.SSHStringLen (PtyRequest.EncodedTerminalModes r)
  /\ count w + 4 <= len.
Proof.
  unfold PtyRequest.Write. intros HL. rewrite HL. cbn [run_bind].
  unfold PtyRequest.Length in HL.
  destruct (util.VarIntLen (PtyRequest.CharWidth r)) as [a|] eqn:Ha;
    cbn [run_bind] in HL; [|discriminate].
  destruct (util.VarIntLen (PtyRequest.CharHeight r)) as [b|] eqn:Hb;
    cbn [run_bind] in HL; [|discriminate].
  destruct (util.VarIntLen (PtyRequest.PixelWidth r)) as [c|] eqn:Hc;
    cbn [run_bind] in HL; [|discriminate].
  destruct (util.VarIntLen (PtyRequest.PixelHeight r)) as [d|] eqn:Hd;
    cbn [run_bind] in HL; [|discriminate].
  apply VarIntLen_pos in Ha, Hb, Hc, Hd.
  inversion HL; subst len. clear HL.
  match goal with
  | |- context [length buf <? ?n] =>
      destruct (Nat.ltb_spec (length buf) n) as [Hsmall|Hfit]
  end.
  { intros H Hf. inversion H; subst. discriminate. }
  destruct (util.WriteSSHString (PtyRequest.Term r) buf) as [w1|] eqn:H1;
    cbn [run_bind]; [|discriminate].
  case_failure w1 Hfail1.
  destruct (string_Write_exact _ _ _ H1 Hfail1) as (Hc1 & Hfr1).
  match goal with
  | |- context [range_AppendVarInt ?x ?v] =>
      destruct (range_AppendVarInt x v) as [attrs|] eqn:Hattrs
  end; cbn [run_bind]; [|discriminate].
  apply range_AppendVarInt_keeps in Hattrs. subst attrs.
  case_on_slice w2 H2.
  apply on_slice_inv in H2 as (Hfrom & r2 & Hr2 & Hc2 & Hf2 & Hm2).
  rewrite copy_nil in Hr2. inversion Hr2; subst r2. cbn [count failure mem] in *.
  rewrite Hc2.
  case_on_slice w3 H3. case_failure w3 Hfail3.
  destruct (on_slice_WriteSSHString_inv _ _ _ _ H3 Hfail3) as (Hc3 & _ & _).
  intros H _. inversion H; subst w. cbn [count].
  unfold util.SSHStringLen in *. lia.
Qed.

(** X3: for the two structs that run the dropping loop, pty and window
    change, every successful write returns at least four bytes less than
    [Length] reported. *)
Theorem Write_short_when_varints_dropped (c : ChannelRequest.t)
    (buf : list byte) (w : written) (len : nat) :
  drops_varints c = true ->
  ChannelRequest.Length c = Return len ->
  ChannelRequest.Write c buf = Return w ->
  failure w = None ->
  count w + 4 <= len.
Proof.
  destruct c as [r|r|r|r|r|r|r|r|r]; cbn [drops_varints]; try discriminate;
    intros _; cbn [ChannelRequest.Length ChannelRequest.Write]; intros HL H Hf.
  - now destruct (PtyRequest_Write_short _ _ _ _ HL H Hf).
  - destruct (WindowChangeRequest_Write_silent _ _ _ H Hf) as [-> _].
    apply WindowChangeRequest_Length_ge_4 in HL. lia.
Qed.

(** For the seven structs that do not run the dropping loop, a write that
    succeeds returns exactly what [Length] reported and leaves every byte
    from that position on, and the size of the buffer, as they were. *)
Theorem Write_exact_unless_varints_dropped (c : ChannelRequest.t)
    (buf : list byte) (w : written) (len : nat) :
  drops_varints c = false ->
  ChannelRequest.Length c = Return len ->
  ChannelRequest.Write c buf = Return w ->
  failure w = None ->
  count w = len /\ frame len buf (mem w).
Proof.
  destruct c as [r|r|r|r|r|r|r|r|r]; cbn [drops_varints]; try discriminate;
    intros _; cbn [ChannelRequest.Length ChannelRequest.Write].
  - apply X11Request_Write_exact.
  - intros HL H _. inversion HL; inversion H; subst. split; [reflexivity|apply frame_refl].
  - intros HL H Hf. inversion HL; subst. now apply string_Write_exact.
  - intros HL H Hf. inversion HL; subst. now apply string_Write_exact.
  - intros HL H Hf. inversion HL; subst. now apply string_Write_exact.
  - apply ExitStatusRequest_Write_exact.
  - apply ExitSignalRequest_Write_exact.
Qed.

(** The same for the envelope around such a struct. *)
Theorem ChannelRequestMessage_Write_exact (m : ChannelRequestMessage.t)
    (buf : list byte) (w : written) (len : nat) :
  drops_varints (ChannelRequestMessage.request m) = false ->
  ChannelRequestMessage.Length m = Return len ->
  ChannelRequestMessage.Write m buf = Return w ->
  failure w = None ->
  count w = len /\ frame len buf (mem w).
Proof.
  intros Hkeep HL. unfold ChannelRequestMessage.Write. rewrite HL. cbn [run_bind].
  unfold ChannelRequestMessage.Length in HL.
  destruct (ChannelRequest.Length (ChannelRequestMessage.request m)) as [n|] eqn:Hn;
    cbn [run_bind] in HL; [|discriminate].
  inversion HL; subst len. clear HL.
  match goal with
  | |- context [length buf <? ?k] =>
      destruct (Nat.ltb_spec (length buf) k) as [Hsmall|Hfit]
  end.
  { intros H Hf. inversion H; subst. discriminate. }
  destruct (store buf 0 SSH_MSG_CHANNEL_REQUEST) as [buf1|] eqn:Hst1;
    cbn [run_bind]; [|discriminate].
  apply frame_store in Hst1.
  case_on_slice w1 H1. case_failure w1 Hfail1.
  destruct (on_slice_WriteSSHString_inv _ _ _ _ H1 Hfail1) as (Hc1 & Hb1 & Hfr1).
  match goal with
  | |- context [run_bind ?x _] => destruct x as [buf2|] eqn:Hst2
  end; cbn [run_bind]; [|discriminate].
  apply store_flag, frame_store in Hst2.
  case_on_slice w2 H2. case_failure w2 Hfail2.
  apply on_slice_inv in H2 as (Hfrom & r & Hr & Hc2 & Hf2 & Hm2).
  rewrite Hf2 in Hfail2.
  destruct (Write_exact_unless_varints_dropped _ _ _ _ Hkeep Hn Hr Hfail2)
    as (Hcr & Hfr).
  unfold util.SSHStringLen in *.
  intros H _. inversion H; subst w. cbn [count mem].
  split; [lia|].
  apply frame_trans with buf1; [eapply frame_weaken; [|exact Hst1]; lia|].
  apply frame_trans with (mem w1); [eapply frame_weaken; [|exact Hfr1]; lia|].
  apply frame_trans with buf2; [eapply frame_weaken; [|exact Hst2]; lia|].
  rewrite Hm2. eapply frame_weaken; [|apply frame_on_slice; [exact Hfrom | exact Hfr]].
  lia.
Qed.

(** ** Writing forward: what the buffer holds after each step *)

Lemma length_wire_string (s : string) : length (wire_string s) = util.SSHStringLen s.
Proof.
  unfold wire_string.
  rewrite length_app, length_be_bytes, length_list_byte_of_string. reflexivity.
Qed.

Lemma step_store (img buf : list byte) (from : nat) (b : byte) :
  from = length img ->
  from < length buf ->
  store (filled img buf) from b = Return (filled (img ++ [b]) buf).
Proof.
  intros -> Hlt. unfold store, filled.
  rewrite length_app, length_skipn.
  destruct (Nat.ltb_spec (length img) (length img + (length buf - length img)));
    [|lia].
  rewrite take_app_length. f_equal. rewrite <- app_assoc. f_equal. cbn [app]. f_equal.
  change (S (length img)) with (1 + length img).
  rewrite <- skipn_skipn, drop_app_length, skipn_skipn, length_app.
  cbn [length]. f_equal. lia.
Qed.

Lemma step_slice (img buf src : list byte) (from : nat)
    (f : list byte -> run written) :
  from = length img ->
  from + length src <= length buf ->
  (forall dst, length src <= length dst ->
     f dst = Return (Written (length src) None (src ++ skipn (length src) dst))) ->
  on_slice from f (filled img buf)
  = Return (Written (length src) None (filled (img ++ src) buf)).
Proof.
  intros -> Hfit Hf. unfold on_slice, filled.
  rewrite length_app, length_skipn.
  destruct (Nat.leb_spec (length img) (length img + (length buf - length img)));
    [|lia].
  rewrite drop_app_length, take_app_length.
  rewrite Hf by (rewrite length_skipn; lia). cbn [run_bind count failure mem].
  do 2 f_equal. rewrite <- app_assoc. do 2 f_equal.
  rewrite skipn_skipn, length_app. f_equal. lia.
Qed.

Lemma WriteSSHString_fits (s : string) (dst : list byte) :
  length (wire_string s) <= length dst ->
  util.WriteSSHString s dst
  = Return (Written (length (wire_string s)) None
              (wire_string s ++ skipn (length (wire_string s)) dst)).
Proof.
  rewrite length_wire_string. intros Hfit. unfold util.WriteSSHString.
  destruct (Nat.ltb_spec (length dst) (util.SSHStringLen s)); [lia|].
  unfold wire_string. now rewrite <- app_assoc.
Qed.

Lemma copy_write_fits (src dst : list byte) :
  length src <= length dst ->
  (let (n, dst') := copy dst src in Return (Written n None dst'))
  = Return (Written (length src) None (src ++ skipn (length src) dst)).
Proof. intros Hfit. now rewrite copy_fits. Qed.

Lemma filled_all (img buf : list byte) :
  length buf = length img -> filled img buf = img.
Proof.
  intros H. unfold filled. rewrite skipn_all2 by lia. apply app_nil_r.
Qed.

Lemma with_bufio_ReadVarInt (i : N) (enc : list byte) (k : bool) :
  util.AppendVarInt [] i = Return enc ->
  fst (with_bufio util.ReadVarInt (Reader enc k)) = Ok i.
Proof.
  intros Henc. unfold with_bufio.
  destruct (ReadVarInt_AppendVarInt i enc [] (bufio_NewReader (Reader enc k)) Henc)
    as (b' & Hb' & _).
  { unfold pending. cbn. now rewrite app_nil_r. }
  now rewrite Hb'.
Qed.

Lemma ParseSSHString_wire_string (s : string) (rest : list byte) (k : bool) :
  (N.of_nat (String.length s) < 2 ^ 32)%N ->
  util.ParseSSHString (Reader (wire_string s ++ rest) k) = (Ok s, Reader rest k).
Proof.
  intros Hlen. unfold wire_string. rewrite <- app_assoc.
  now apply ParseSSHString_wire.
Qed.

(** ** Round trip, where it holds *)

Lemma encode_string (s : string) :
  util.WriteSSHString s (make (util.SSHStringLen s))
  = Return (Written (util.SSHStringLen s) None
              (be_bytes 4 (N.of_nat (String.length s)) ++ list_byte_of_string s)).
Proof.
  unfold util.WriteSSHString, make. rewrite repeat_length, Nat.ltb_irrefl.
  rewrite skipn_all2 by (rewrite repeat_length; lia).
  now rewrite app_nil_r.
Qed.

Lemma firstn_wire (s : string) :
  firstn (util.SSHStringLen s)
    (be_bytes 4 (N.of_nat (String.length s)) ++ list_byte_of_string s)
  = be_bytes 4 (N.of_nat (String.length s)) ++ list_byte_of_string s.
Proof.
  apply firstn_all2.
  rewrite length_app, length_be_bytes, length_list_byte_of_string. reflexivity.
Qed.

(** X21: a shell, exec, subsystem or signal request whose string is shorter than
    2^32 bytes survives [decode(write(v))]; the empty string, one byte and
    multi-byte UTF-8 sequences are instances. *)
Theorem roundtrip_single_string (c : ChannelRequest.t) (s : string) :
  single_string c = Some s ->
  (N.of_nat (String.length s) < 2 ^ 32)%N ->
  roundtrip c = Return (Ok c).
Proof.
  destruct c as [r|r|r|r|r|r|r|r|r]; cbn [single_string]; try discriminate;
    intros Hs Hlen; inversion Hs; subst s; destruct r; cbn in Hlen;
    [reflexivity | | | ];
    unfold roundtrip, encode, ChannelRequest.Length, ChannelRequest.Write,
      ExecRequest.Length, ExecRequest.Write, ExecRequest.Command,
      SubsystemRequest.Length, SubsystemRequest.Write, SubsystemRequest.SubsystemName,
      SignalRequest.Length, SignalRequest.Write, SignalRequest.SignalNameWithoutSig;
    cbn [run_bind]; rewrite encode_string; cbn [run_bind failure count mem];
    rewrite firstn_wire; cbn [decoder_of];
    unfold ParseExecRequest, ParseSubsystemRequest, ParseSignalRequest,
      ParseSSHString_or_ErrAdvanceTooFar, dec_bind, bytes_NewReader;
    match goal with
    | |- context [list_byte_of_string ?s] =>
        rewrite <- (app_nil_r (list_byte_of_string s)),
          ParseSSHString_wire by exact Hlen
    end;
    reflexivity.
Qed.

Lemma roundtrip_single_string_witness :
  roundtrip (Exec (ExecRequest.Build "")) = Return (Ok (Exec (ExecRequest.Build "")))
  /\ roundtrip (Exec (ExecRequest.Build "x")) = Return (Ok (Exec (ExecRequest.Build "x")))
  /\ roundtrip (Signal (SignalRequest.Build (String "195" (String "169" "t"))))
     = Return (Ok (Signal (SignalRequest.Build (String "195" (String "169" "t"))))).
Proof.
  split; [|split];
    (eapply roundtrip_single_string; [reflexivity | vm_compute; reflexivity]).
Defined.

(** An X11 request written into a buffer that is large enough fills it
    with the flag byte, the two strings and the varint, in this order. *)
Lemma X11Request_Write_image (r : X11Request.t) (buf enc : list byte) (len : nat) :
  X11Request.Length r = Return len ->
  util.AppendVarInt [] (X11Request.X11ScreenNumber r) = Return enc ->
  len <= length buf ->
  len = length (X11_image r enc)
  /\ X11Request.Write r buf = Return (Written len None (filled (X11_image r enc) buf)).
Proof.
  intros HL Henc Hfit. unfold X11Request.Write. rewrite HL. cbn [run_bind].
  unfold X11Request.Length in HL.
  destruct (util.VarIntLen (X11Request.X11ScreenNumber r)) as [n|] eqn:Hn;
    cbn [run_bind] in HL; [|discriminate].
  destruct (AppendVarInt_length [] _ _ Hn) as (enc' & Henc' & Hlen).
  rewrite Henc in Henc'. inversion Henc'; subst enc'. clear Henc'.
  assert (Himg : len = length (X11_image r enc)).
  { unfold X11_image. rewrite !length_app, !length_wire_string, Hlen.
    cbn [length]. inversion HL. unfold util.SSHStringLen. lia. }
  split; [exact Himg|].
  unfold X11_image in Himg. rewrite !length_app, !length_wire_string in Himg.
  cbn [length] in Himg. unfold util.SSHStringLen in Himg.
  destruct (Nat.ltb_spec (length buf) len) as [Hsmall|_]; [lia|].
  set (flag := if X11Request.SingleConnection r then byte_of_N 1 else byte_of_N 0).
  assert (Hs : (if X11Request.SingleConnection r then store buf 0 (byte_of_N 1)
                else store buf 0 (byte_of_N 0)) = Return (filled [flag] buf)).
  { unfold flag. destruct (X11Request.SingleConnection r);
      apply (step_store [] buf 0 _ eq_refl); lia. }
  rewrite Hs. cbn [run_bind].
  rewrite (step_slice [flag] buf (wire_string (X11Request.X11AuthenticationProtocol r)));
    [| reflexivity | rewrite length_wire_string; unfold util.SSHStringLen; cbn [length]; lia
     | intros dst; apply WriteSSHString_fits].
  cbn [run_bind failure count mem].
  rewrite (step_slice _ buf (wire_string (X11Request.X11AuthenticationCookie r)));
    [| rewrite length_app; reflexivity
     | rewrite !length_wire_string; unfold util.SSHStringLen; cbn [length]; lia
     | intros dst; apply WriteSSHString_fits].
  cbn [run_bind failure count mem]. rewrite Henc. cbn [run_bind].
  rewrite (step_slice _ buf enc);
    [| rewrite !length_app; reflexivity
     | rewrite !length_wire_string; unfold util.SSHStringLen; cbn [length]; lia
     | intros dst; apply copy_write_fits].
  cbn [run_bind failure count mem]. unfold X11_image. fold flag.
  do 2 f_equal. rewrite !length_wire_string. unfold util.SSHStringLen. cbn [length]. lia.
Qed.

(** X22: an X11 request whose strings are shorter than 2^32 bytes and whose
    screen number is below 2^62 survives [decode(write(v))]. *)
Theorem roundtrip_X11 (r : X11Request.t) :
  (N.of_nat (String.length (X11Request.X11AuthenticationProtocol r)) < 2 ^ 32)%N ->
  (N.of_nat (String.length (X11Request.X11AuthenticationCookie r)) < 2 ^ 32)%N ->
  (X11Request.X11ScreenNumber r < 2 ^ 62)%N ->
  roundtrip (X11 r) = Return (Ok (X11 r)).
Proof.
  intros Hp Hc Hn.
  destruct (util.VarIntLen (X11Request.X11ScreenNumber r)) as [n|] eqn:Hlen.
  2:{ unfold util.VarIntLen in Hlen.
      repeat match type of Hlen with
             | context [if ?c then _ else _] => destruct c eqn:?
             end; try discriminate.
      apply N.ltb_ge in Heqb2. lia. }
  destruct (AppendVarInt_length [] _ _ Hlen) as (enc & Henc & _). cbn [app] in Henc.
  assert (HL : exists len, X11Request.Length r = Return len).
  { unfold X11Request.Length. rewrite Hlen. cbn [run_bind]. eauto. }
  destruct HL as (len & HL).
  destruct (X11Request_Write_image r (make len) enc len HL Henc) as (Himg & Hw).
  { unfold make. now rewrite repeat_length. }
  unfold roundtrip, encode. cbn [ChannelRequest.Length ChannelRequest.Write].
  rewrite HL. cbn [run_bind]. rewrite Hw. cbn [run_bind failure count mem].
  rewrite filled_all by (unfold make; rewrite repeat_length; exact Himg).
  rewrite Himg, firstn_all. cbn [decoder_of].
  unfold ParseX11Request, dec_bind, dec_ret, bytes_NewReader, X11_image.
  rewrite <- !app_assoc. cbn [app binary_Read_bool unread].
  unfold advance. cbn [unread buffered skipn]. rewrite skipn_O.
  rewrite ParseSSHString_wire_string by exact Hp.
  rewrite ParseSSHString_wire_string by exact Hc.
  pose proof (with_bufio_ReadVarInt _ _ false Henc) as Hv.
  destruct (with_bufio util.ReadVarInt (Reader enc false)) as [[v|e] buf'];
    cbn [fst] in Hv; inversion Hv; subst.
  destruct r as [[|] p c v]; reflexivity.
Qed.

(** X23: an exit status below 2^62 survives [decode(write(v))]. *)
Theorem roundtrip_ExitStatus (r : ExitStatusRequest.t) :
  (ExitStatusRequest.exitStatus r < 2 ^ 62)%N ->
  roundtrip (ExitStatus r) = Return (Ok (ExitStatus r)).
Proof.
  intros Hn.
  destruct (util.VarIntLen (ExitStatusRequest.exitStatus r)) as [n|] eqn:Hlen.
  2:{ unfold util.VarIntLen in Hlen.
      repeat match type of Hlen with
             | context [if ?c then _ else _] => destruct c eqn:?
             end; try discriminate.
      apply N.ltb_ge in Heqb2. lia. }
  destruct (AppendVarInt_length [] _ _ Hlen) as (enc & Henc & Hl). cbn [app] in Henc.
  unfold roundtrip, encode.
  cbn [ChannelRequest.Length ChannelRequest.Write].
  unfold ExitStatusRequest.Write, ExitStatusRequest.Length.
  rewrite Hlen, Henc. cbn [run_bind].
  unfold make at 1. rewrite repeat_length, Nat.ltb_irrefl.
  rewrite copy_fits by (unfold make; rewrite repeat_length; lia).
  cbn [run_bind failure count mem].
  rewrite take_app_length. cbn [decoder_of].
  unfold ParseExitStatusRequest, bytes_NewReader.
  pose proof (with_bufio_ReadVarInt _ _ false Henc) as Hv.
  unfold with_bufio, dec_bind, dec_ret in *.
  destruct (util.ReadVarInt (bufio_NewReader (Reader enc false))) as [[v|e] b'];
    cbn [fst] in *; inversion Hv; subst.
  destruct r; reflexivity.
Qed.

(** ** The registry, entry by entry *)

Lemma registry_entries :
  ChannelRequestParseFuncs !! "pty-req" = Some ParsePtyRequest
  /\ ChannelRequestParseFuncs !! "x11-req" = Some ParseX11Request
  /\ ChannelRequestParseFuncs !! "shell" = Some ParseShellRequest
  /\ ChannelRequestParseFuncs !! "exec" = Some ParseExecRequest
  /\ ChannelRequestParseFuncs !! "subsystem" = Some ParseSubsystemRequest
  /\ ChannelRequestParseFuncs !! "window-change" = Some ParseWindowChangeRequest
  /\ ChannelRequestParseFuncs !! "signal" = Some ParseSignalRequest.
Proof. repeat split; reflexivity. Qed.

(** ** Failures of the envelope decoder, classified *)

(** X24: every failure of the envelope decoder is one of four: the tag could not
    be read, the reply flag could not be read, the tag has no entry, or the
    resolved decoder failed with this very error. *)
Lemma ParseRequestMessage_error_inv (buf buf' : io_Reader) (e : error) :
  ParseRequestMessage buf = (Err e, buf') ->
  util.ParseSSHString buf = (Err e, buf')
  \/ (exists requestType buf1,
        util.ParseSSHString buf = (Ok requestType, buf1)
        /\ (binary_Read_bool buf1 = (Err e, buf')
            \/ exists wantReply buf2,
                 binary_Read_bool buf1 = (Ok wantReply, buf2)
                 /\ ((ChannelRequestParseFuncs !! requestType = None
                      /\ e = Errorf_invalid_request_type requestType /\ buf' = buf2)
                     \/ exists parseFunc,
                          ChannelRequestParseFuncs !! requestType = Some parseFunc
                          /\ parseFunc buf2 = (Err e, buf')))).
Proof.
  unfold ParseRequestMessage, dec_bind, dec_fail, dec_ret.
  destruct (util.ParseSSHString buf) as [[requestType|e0] buf1] eqn:Htag.
  2:{ intros H. left. inversion H; subst; reflexivity. }
  destruct (binary_Read_bool buf1) as [[wantReply|e1] buf2] eqn:Hflag.
  2:{ intros H. right. exists requestType, buf1. split; [reflexivity|].
      left. rewrite Hflag. inversion H; subst; reflexivity. }
  intros H. right. exists requestType, buf1. split; [reflexivity|].
  right. exists wantReply, buf2. split; [exact Hflag|].
  destruct (ChannelRequestParseFuncs !! requestType) as [parseFunc|].
  - right. exists parseFunc. split; [reflexivity|].
    destruct (parseFunc buf2) as [[c|e2] buf3]; [discriminate|].
    inversion H; subst; reflexivity.
  - left. inversion H. auto.
Qed.

(** * The statements of the specification *)

(** ** Round trip *)

(** C1: decoding what was encoded does not give the value back for a
    window-change request (no byte is written), for a pty request (the four
    dimensions are missing from the bytes) and for an exit-signal request
    (the three strings are written over one another at offset 0). *)
Theorem C1_roundtrip_fails :
  roundtrip (WindowChange window_80_24) = Return (Err Truncated)
  /\ fst (ParseWindowChangeRequest (bytes_NewReader (make 7)))
     = Ok (WindowChange (WindowChangeRequest.Build 0 0 0 0))
  /\ encode (Pty pty_xterm)
     = Return (Ok ([x00; x00; x00; x05] ++ list_byte_of_string "xterm"
                     ++ [x00; x00; x00; x00]))
  /\ roundtrip (Pty pty_xterm) = Return (Err Truncated)
  /\ encode (ExitSignal exit_signal_KILL)
     = Return (Ok ([x00; x00; x00; x02] ++ list_byte_of_string "enlled"
                     ++ make 15))
  /\ roundtrip (ExitSignal exit_signal_KILL) = Return (Err bufio_ErrAdvanceTooFar).
Proof. repeat split; vm_compute; reflexivity. Qed.

(** ** Length exactness *)

(** C2: for the window-change request [Length] reports 7 and a successful
    [Write] returns 0; for the pty request 20 against 13; wrapped in an
    envelope, the window-change request gives 26 against 19. *)
Theorem C2_write_count_differs_from_length :
  WindowChangeRequest.Length window_80_24 = Return 7
  /\ WindowChangeRequest.Write window_80_24 (make 7) = Return (Written 0 None (make 7))
  /\ PtyRequest.Length pty_xterm = Return 20
  /\ PtyRequest.Write pty_xterm (make 20)
     = Return (Written 13 None
                 (be_bytes 4 5 ++ list_byte_of_string "xterm" ++ make 11))
  /\ ChannelRequestMessage.Length
       (ChannelRequestMessage.Build false (WindowChange window_80_24)) = Return 26
  /\ ChannelRequestMessage.Write
       (ChannelRequestMessage.Build false (WindowChange window_80_24)) (make 26)
     = Return (Written 19 None
                 ([x62] ++ be_bytes 4 13 ++ list_byte_of_string "window-change"
                    ++ make 8)).
Proof. repeat split; vm_compute; reflexivity. Qed.

(** ** Tags *)

(** C3: the tag method of [ExitStatusRequest] answers "signal", the very
    tag of [SignalRequest], and not "exit-status". *)
Theorem C3_exit_status_tag_is_signal (r : ExitStatusRequest.t) (s : SignalRequest.t) :
  ExitStatusRequest.RequestTypeStr r = "signal"
  /\ ExitStatusRequest.RequestTypeStr r <> "exit-status"
  /\ ExitStatusRequest.RequestTypeStr r = SignalRequest.RequestTypeStr s.
Proof. repeat split. discriminate. Qed.

(** ** The registry *)

(** C4: seven of the nine tags resolve; "exit-status" and "exit-signal" have
    no entry, and an envelope carrying "exit-status" is turned away as an
    invalid request type although [ParseExitStatusRequest] exists. *)
Theorem C4_exit_tags_not_registered :
  ChannelRequestParseFuncs !! "exit-status" = None
  /\ ChannelRequestParseFuncs !! "exit-signal" = None
  /\ fst (ParseRequestMessage exit_status_stream)
     = Err (Errorf_invalid_request_type "exit-status")
  /\ fst (ParseExitStatusRequest (bytes_NewReader [x00]))
     = Ok (ExitStatus (ExitStatusRequest.Build 0)).
Proof. repeat split; vm_compute; reflexivity. Qed.

(** ** Window change on the wire *)

(** C5: writing the request 80 x 24, 640 x 480 into a buffer of the seven
    bytes [Length] asks for reports zero bytes and writes none, so the
    varint decoder finds nothing to read; the four varints that were
    computed and dropped would have decoded to 80, 24, 640, 480. *)
Theorem C5_window_change_writes_nothing :
  WindowChangeRequest.Length window_80_24 = Return 7
  /\ WindowChangeRequest.Write window_80_24 (make 7) = Return (Written 0 None (make 7))
  /\ encode (WindowChange window_80_24) = Return (Ok [])
  /\ fst (with_bufio util.ReadVarInt (bytes_NewReader [])) = Err Truncated
  /\ fst (ParseWindowChangeRequest
            (bytes_NewReader [x40; x50; x18; x42; x80; x41; xe0]))
     = Ok (WindowChange window_80_24).
Proof. repeat split; vm_compute; reflexivity. Qed.

(** ** Errors of the envelope decoder *)

(** C6: when the tag and the reply flag have been read, the tag resolves to
    a decoder and that decoder fails, [ParseRequestMessage] returns the
    decoder's error as it is, with the reader as the decoder left it. *)
Theorem C6_payload_error_propagates (buf buf1 buf2 buf3 : io_Reader)
    (requestType : string) (wantReply : bool)
    (parseFunc : decoder io_Reader ChannelRequest.t) (e : error) :
  util.ParseSSHString buf = (Ok requestType, buf1) ->
  binary_Read_bool buf1 = (Ok wantReply, buf2) ->
  ChannelRequestParseFuncs !! requestType = Some parseFunc ->
  parseFunc buf2 = (Err e, buf3) ->
  ParseRequestMessage buf = (Err e, buf3).
Proof.
  intros Htag Hflag Hfun Hfail.
  unfold ParseRequestMessage, dec_bind.
  now rewrite Htag, Hflag, Hfun, Hfail.
Qed.

Lemma C6_payload_error_propagates_witness :
  ParseRequestMessage exec_truncated_stream
  = (Err bufio_ErrAdvanceTooFar, Reader [] false).
Proof.
  apply (C6_payload_error_propagates exec_truncated_stream
           (Reader ([x01] ++ be_bytes 4 10 ++ list_byte_of_string "ls ") false)
           (Reader (be_bytes 4 10 ++ list_byte_of_string "ls ") false)
           (Reader [] false) "exec" true ParseExecRequest bufio_ErrAdvanceTooFar);
    reflexivity.
Defined.

(** ** Unregistered tags *)

(** C7 as stated fails: the stream that ends right after the tag
    "frobnicate" has an unregistered tag, yet the decoder returns [io.EOF],
    from the read of the reply flag that precedes the lookup. *)
Lemma C7_counterexample :
  util.ParseSSHString frobnicate_only = (Ok "frobnicate", Reader [] false)
  /\ ChannelRequestParseFuncs !! "frobnicate" = None
  /\ ParseRequestMessage frobnicate_only = (Err io_EOF, Reader [] false)
  /\ io_EOF <> Errorf_invalid_request_type "frobnicate".
Proof. repeat split; try reflexivity. discriminate. Qed.

(** C7, amended: for a stream whose tag has no entry in the registry the
    envelope decoder returns an error and no envelope (a decoder is a total
    function, so it cannot panic); the error is the invalid-request-type
    error naming the tag whenever a byte follows the tag, and [io.EOF] from
    the read of the reply flag when none does. *)
Theorem C7_unregistered_tag_is_an_error (buf buf1 : io_Reader) (requestType : string) :
  util.ParseSSHString buf = (Ok requestType, buf1) ->
  ChannelRequestParseFuncs !! requestType = None ->
  (exists e buf', ParseRequestMessage buf = (Err e, buf'))
  /\ (forall b rest, unread buf1 = b :: rest ->
        ParseRequestMessage buf
        = (Err (Errorf_invalid_request_type requestType), advance 1 buf1))
  /\ (unread buf1 = [] -> ParseRequestMessage buf = (Err io_EOF, buf1)).
Proof.
  intros Htag Hnone.
  assert (Hsome : forall b rest, unread buf1 = b :: rest ->
            ParseRequestMessage buf
            = (Err (Errorf_invalid_request_type requestType), advance 1 buf1)).
  { intros b rest Hb. unfold ParseRequestMessage, dec_bind, binary_Read_bool.
    now rewrite Htag, Hb, Hnone. }
  assert (Hnil : unread buf1 = [] -> ParseRequestMessage buf = (Err io_EOF, buf1)).
  { intros Hb. unfold ParseRequestMessage, dec_bind, binary_Read_bool.
    now rewrite Htag, Hb. }
  split; [|split]; auto.
  destruct (unread buf1) as [|b rest] eqn:Hb; eauto.
Qed.

Lemma C7_unregistered_tag_is_an_error_witness :
  ParseRequestMessage
    (bytes_NewReader (be_bytes 4 10 ++ list_byte_of_string "frobnicate" ++ [x01; x2a]))
  = (Err (Errorf_invalid_request_type "frobnicate"), Reader [x2a] false).
Proof.
  apply (proj1 (proj2 (C7_unregistered_tag_is_an_error
           (bytes_NewReader (be_bytes 4 10 ++ list_byte_of_string "frobnicate" ++ [x01; x2a]))
           (Reader [x01; x2a] false) "frobnicate" eq_refl eq_refl)) x01 [x2a] eq_refl).
Defined.

(** ** Boolean fields *)

(** C8 as stated fails: the byte 2 decodes to [true] without error, as the
    reply flag of an envelope, as the single-connection flag and as the
    core-dumped flag. *)
Lemma C8_counterexample :
  binary_Read_bool (bytes_NewReader [x02]) = (Ok true, Reader [] false)
  /\ fst (ParseRequestMessage
            (bytes_NewReader (be_bytes 4 5 ++ list_byte_of_string "shell" ++ [x02])))
     = Ok (ChannelRequestMessage.Build true (Shell ShellRequest.Build))
  /\ fst (ParseX11Request
            (bytes_NewReader ([x02] ++ be_bytes 4 0 ++ be_bytes 4 0 ++ [x00])))
     = Ok (X11 (X11Request.Build true "" "" 0))
  /\ fst (ParseExitSignalRequest
            (bytes_NewReader (be_bytes 4 0 ++ [x02] ++ be_bytes 4 0 ++ be_bytes 4 0)))
     = Ok (ExitSignal (ExitSignalRequest.Build "" true "" "")).
Proof. repeat split. Qed.

(** C8, amended: a boolean field decodes to [true] exactly when its byte is
    not zero; so 1 gives [true], 0 gives [false] and every other byte gives
    [true] as well, without an error.  This holds for the byte read by
    [binary.Read] and for each of the three fields read through it. *)
Theorem C8_flag_is_byte_nonzero (b : byte) (rest : list byte) (k : bool) :
  binary_Read_bool (Reader (b :: rest) k) = (Ok (nonzero b), Reader rest k)
  /\ (forall buf requestType m buf',
        util.ParseSSHString buf = (Ok requestType, Reader (b :: rest) k) ->
        ParseRequestMessage buf = (Ok m, buf') ->
        ChannelRequestMessage.wantReply m = nonzero b)
  /\ (forall r buf',
        ParseX11Request (Reader (b :: rest) k) = (Ok (X11 r), buf') ->
        X11Request.SingleConnection r = nonzero b)
  /\ (forall buf signalNameWithoutSig r buf',
        ParseSSHString_or_ErrAdvanceTooFar buf
        = (Ok signalNameWithoutSig, Reader (b :: rest) k) ->
        ParseExitSignalRequest buf = (Ok (ExitSignal r), buf') ->
        ExitSignalRequest.CoreDumped r = nonzero b).
Proof.
  assert (Hread : binary_Read_bool (Reader (b :: rest) k)
                  = (Ok (nonzero b), Reader rest k)) by reflexivity.
  split; [exact Hread|]. split; [|split].
  - intros buf requestType m buf' Htag.
    unfold ParseRequestMessage, dec_bind, dec_fail, dec_ret.
    rewrite Htag, Hread.
    destruct (ChannelRequestParseFuncs !! requestType) as [parseFunc|]; [|discriminate].
    destruct (parseFunc (Reader rest k)) as [[c|e] buf3]; [|discriminate].
    intros H. inversion H. reflexivity.
  - intros r buf'.
    unfold ParseX11Request, dec_bind, dec_ret. rewrite Hread.
    destruct (util.ParseSSHString (Reader rest k)) as [[p|e] buf1]; [|discriminate].
    destruct (util.ParseSSHString buf1) as [[c|e] buf2]; [|discriminate].
    destruct (with_bufio util.ReadVarInt buf2) as [[n|e] buf3]; [|discriminate].
    intros H. inversion H. reflexivity.
  - intros buf s r buf' Hname.
    unfold ParseExitSignalRequest, dec_bind, dec_ret. rewrite Hname, Hread.
    destruct (ParseSSHString_or_ErrAdvanceTooFar (Reader rest k)) as [[m|e] buf1];
      [|discriminate].
    destruct (ParseSSHString_or_ErrAdvanceTooFar buf1) as [[l|e] buf2]; [|discriminate].
    intros H. inversion H. reflexivity.
Qed.

Lemma C8_flag_is_byte_nonzero_witness :
  binary_Read_bool (Reader [x07; x00] true) = (Ok true, Reader [x00] true)
  /\ ChannelRequestMessage.wantReply
       (ChannelRequestMessage.Build true (Shell ShellRequest.Build)) = true.
Proof.
  split.
  - exact (proj1 (C8_flag_is_byte_nonzero x07 [x00] true)).
  - exact (proj1 (proj2 (C8_flag_is_byte_nonzero x07 [x00] true))
             (Reader (be_bytes 4 5 ++ list_byte_of_string "shell" ++ [x07; x00]) true)
             "shell" (ChannelRequestMessage.Build true (Shell ShellRequest.Build))
             (Reader [x00] true) eq_refl eq_refl).
Defined.

(** ** The exec scenario *)

(** C9: the envelope for the command "ls -la" with the reply flag set
    reports 20 bytes; written into any buffer of at least that size it
    produces the message-type byte 98, the length 4 and "exec", the reply
    byte 1, the length 6 and "ls -la", and leaves what follows alone;
    decoding those bytes from the tag onward gives the same envelope back
    and stops right after them. *)
Theorem C9_exec_ls_on_the_wire (buf rest : list byte) (k : bool) :
  20 <= length buf ->
  ChannelRequestMessage.Length exec_ls = Return 20
  /\ ChannelRequestMessage.Write exec_ls buf
     = Return (Written 20 None (exec_ls_wire ++ skipn 20 buf))
  /\ ParseRequestMessage (Reader (skipn 1 exec_ls_wire ++ rest) k)
     = (Ok exec_ls, Reader rest k).
Proof.
  intros Hlen. split; [reflexivity|]. split.
  - do 20 (destruct buf as [|? buf]; [simpl in Hlen; lia|]).
    reflexivity.
  - unfold ParseRequestMessage, dec_bind.
    change (skipn 1 exec_ls_wire ++ rest)
      with (x00 :: x00 :: x00 :: x04 :: [x65; x78; x65; x63]
              ++ (x01 :: x00 :: x00 :: x00 :: x06
                    :: [x6c; x73; x20; x2d; x6c; x61] ++ rest)).
    rewrite ParseSSHString_prefix by reflexivity.
    change (string_of_list_byte [x65; x78; x65; x63]) with "exec".
    cbn [binary_Read_bool unread advance skipn buffered].
    rewrite (proj1 (proj2 (proj2 (proj2 registry_entries)))).
    unfold ParseExecRequest, ParseSSHString_or_ErrAdvanceTooFar, dec_bind, advance.
    cbn [unread buffered skipn].
    rewrite ParseSSHString_prefix by reflexivity.
    reflexivity.
Qed.

Lemma C9_exec_ls_on_the_wire_witness :
  ChannelRequestMessage.Write exec_ls (make 20) = Return (Written 20 None exec_ls_wire)
  /\ ParseRequestMessage (bytes_NewReader (skipn 1 exec_ls_wire))
     = (Ok exec_ls, Reader [] false).
Proof.
  pose proof (C9_exec_ls_on_the_wire (make 20) [] false) as H.
  assert (Hlen : 20 <= length (make 20)) by (vm_compute; lia).
  destruct (H Hlen) as [_ [Hw Hp]].
  split; [exact Hw | exact Hp].
Defined.

(** ** Error returns of the envelope writer *)

(** C10: whenever the envelope's [Write] returns an error, the count it
    returns with it is 0. *)
Theorem C10_error_returns_zero (m : ChannelRequestMessage.t) (buf : list byte)
    (w : written) (e : error) :
  ChannelRequestMessage.Write m buf = Return w ->
  failure w = Some e ->
  count w = 0.
Proof.
  unfold ChannelRequestMessage.Write.
  repeat step_write;
    intros H Hf; inversion H; subst; cbn in *; congruence.
Qed.

Lemma C10_error_returns_zero_witness :
  ChannelRequestMessage.Write exec_ls (make 3)
  = Return (Written 0 (Some (Errorf_buffer_too_small 3 20)) (make 3))
  /\ count (Written 0 (Some (Errorf_buffer_too_small 3 20)) (make 3)) = 0.
Proof.
  split; [reflexivity|].
  apply (C10_error_returns_zero exec_ls (make 3) _ (Errorf_buffer_too_small 3 20));
    reflexivity.
Defined.

(** * Further properties of the code *)

Ltac sizes :=
  rewrite ?length_app, ?length_wire_string;
  unfold util.SSHStringLen in *; cbn [length] in *; lia.

(** ** Writes that have room *)

Lemma length_filled (img buf : list byte) :
  length img <= length buf -> length (filled img buf) = length buf.
Proof. intros H. unfold filled. rewrite length_app, length_skipn. lia. Qed.

Lemma frame_filled (img buf : list byte) :
  length img <= length buf -> frame (length img) buf (filled img buf).
Proof.
  intros H. split; [now apply length_filled|].
  unfold filled. now rewrite drop_app_length.
Qed.

Lemma VarIntLen_AppendVarInt (b : list byte) (i n : N) :
  util.VarIntLen i = Return n -> exists out, util.AppendVarInt b i = Return out.
Proof.
  intros H. destruct (AppendVarInt_length b i n H) as (enc & Henc & _). eauto.
Qed.

Lemma WriteSSHString_filled (s : string) (dst : list byte) :
  util.SSHStringLen s <= length dst ->
  util.WriteSSHString s dst
  = Return (Written (util.SSHStringLen s) None (filled (wire_string s) dst)).
Proof.
  intros H. rewrite WriteSSHString_fits by (now rewrite length_wire_string).
  unfold filled. now rewrite length_wire_string.
Qed.

Lemma WriteSSHString_small (s : string) (dst : list byte) :
  length dst < util.SSHStringLen s ->
  util.WriteSSHString s dst = Return (Written 0 (Some BufferTooSmall) dst).
Proof.
  intros H. unfold util.WriteSSHString.
  destruct (Nat.ltb_spec (length dst) (util.SSHStringLen s)); [reflexivity | lia].
Qed.

Lemma store_flag_byte (c : bool) (buf : list byte) (i : nat) :
  (if c then store buf i (byte_of_N 1) else store buf i (byte_of_N 0))
  = store buf i (flag_byte c).
Proof. now destruct c. Qed.

(** A window-change write into a buffer that has room returns at once: no
    byte counted, no byte changed. *)
Lemma WindowChangeRequest_Write_room (r : WindowChangeRequest.t)
    (buf : list byte) (len : nat) :
  WindowChangeRequest.Length r = Return len ->
  len <= length buf ->
  WindowChangeRequest.Write r buf = Return (Written 0 None buf).
Proof.
  intros HL Hfit. unfold WindowChangeRequest.Write. rewrite HL. cbn [run_bind].
  destruct (Nat.ltb_spec (length buf) len) as [Hsmall|_]; [lia|].
  unfold WindowChangeRequest.Length in HL.
  destruct (util.VarIntLen (WindowChangeRequest.CharWidth r)) as [a|] eqn:Ha;
    cbn [run_bind] in HL; [|discriminate].
  destruct (util.VarIntLen (WindowChangeRequest.CharHeight r)) as [b|] eqn:Hb;
    cbn [run_bind] in HL; [|discriminate].
  destruct (util.VarIntLen (WindowChangeRequest.PixelWidth r)) as [c|] eqn:Hc;
    cbn [run_bind] in HL; [|discriminate].
  destruct (util.VarIntLen (WindowChangeRequest.PixelHeight r)) as [d|] eqn:Hd;
    cbn [run_bind] in HL; [|discriminate].
  destruct (VarIntLen_AppendVarInt [] _ _ Ha) as (oa & Hoa).
  destruct (VarIntLen_AppendVarInt [] _ _ Hb) as (ob & Hob).
  destruct (VarIntLen_AppendVarInt [] _ _ Hc) as (oc & Hoc).
  destruct (VarIntLen_AppendVarInt [] _ _ Hd) as (od & Hod).
  cbn [range_AppendVarInt]. rewrite Hoa, Hob, Hoc, Hod. cbn [run_bind].
  unfold on_slice. cbn [Nat.leb skipn firstn run_bind]. rewrite copy_nil.
  reflexivity.
Qed.

(** A pty write into a buffer that has room puts the two strings at its
    start, next to one another, and counts only them. *)
Lemma PtyRequest_Write_room (r : PtyRequest.t) (buf : list byte) (len : nat) :
  PtyRequest.Length r = Return len ->
  len <= length buf ->
  PtyRequest.Write r buf
  = Return (Written (length (PtyRequest_written r)) None
              (filled (PtyRequest_written r) buf)).
Proof.
  intros HL Hfit. unfold PtyRequest.Write. rewrite HL. cbn [run_bind].
  destruct (Nat.ltb_spec (length buf) len) as [Hsmall|_]; [lia|].
  unfold PtyRequest.Length in HL.
  destruct (util.VarIntLen (PtyRequest.CharWidth r)) as [a|] eqn:Ha;
    cbn [run_bind] in HL; [|discriminate].
  destruct (util.VarIntLen (PtyRequest.CharHeight r)) as [b|] eqn:Hb;
    cbn [run_bind] in HL; [|discriminate].
  destruct (util.VarIntLen (PtyRequest.PixelWidth r)) as [c|] eqn:Hc;
    cbn [run_bind] in HL; [|discriminate].
  destruct (util.VarIntLen (PtyRequest.PixelHeight r)) as [d|] eqn:Hd;
    cbn [run_bind] in HL; [|discriminate].
  destruct (VarIntLen_AppendVarInt [] _ _ Ha) as (oa & Hoa).
  destruct (VarIntLen_AppendVarInt [] _ _ Hb) as (ob & Hob).
  destruct (VarIntLen_AppendVarInt [] _ _ Hc) as (oc & Hoc).
  destruct (VarIntLen_AppendVarInt [] _ _ Hd) as (od & Hod).
  inversion HL as [Hlen]. unfold util.SSHStringLen in Hlen.
  rewrite WriteSSHString_filled by (unfold util.SSHStringLen; lia).
  cbn [run_bind failure count mem range_AppendVarInt].
  rewrite Hoa, Hob, Hoc, Hod. cbn [run_bind].
  rewrite (step_slice (wire_string (PtyRequest.Term r)) buf []);
    [| sizes | sizes | intros dst _; now rewrite copy_nil ].
  cbn [run_bind failure count mem length]. rewrite app_nil_r.
  rewrite (step_slice (wire_string (PtyRequest.Term r)) buf
             (wire_string (PtyRequest.EncodedTerminalModes r)));
    [| sizes | sizes | intros dst; apply WriteSSHString_fits ].
  cbn [run_bind failure count mem]. unfold PtyRequest_written.
  do 2 f_equal. sizes.
Qed.

(** An exit-signal write into a buffer that has room succeeds and counts
    what [Length] reported; it writes the name and the flag, then the
    message from position 0 over them, then the language tag from
    position 0 over that. *)
Lemma ExitSignalRequest_Write_room (r : ExitSignalRequest.t) (buf : list byte)
    (len : nat) :
  ExitSignalRequest.Length r = Return len ->
  len <= length buf ->
  ExitSignalRequest.Write r buf
  = Return (Written len None (ExitSignalRequest_written r buf)).
Proof.
  intros HL Hfit. unfold ExitSignalRequest.Write. rewrite HL. cbn [run_bind].
  destruct (Nat.ltb_spec (length buf) len) as [Hsmall|_]; [lia|].
  unfold ExitSignalRequest.Length in HL. inversion HL as [Hlen].
  rewrite WriteSSHString_filled by sizes.
  cbn [run_bind failure count mem]. rewrite store_flag_byte.
  rewrite (step_store (wire_string (ExitSignalRequest.SignalNameWithoutSig r)) buf);
    [| sizes | sizes ].
  cbn [run_bind].
  set (buf2 := filled (wire_string (ExitSignalRequest.SignalNameWithoutSig r)
                         ++ [flag_byte (ExitSignalRequest.CoreDumped r)]) buf).
  assert (Hl2 : length buf2 = length buf) by (apply length_filled; sizes).
  rewrite WriteSSHString_filled by (rewrite Hl2; sizes).
  cbn [run_bind failure count mem].
  set (buf3 := filled (wire_string (ExitSignalRequest.ErrorMessageUTF8 r)) buf2).
  assert (Hl3 : length buf3 = length buf2) by (apply length_filled; rewrite Hl2; sizes).
  rewrite WriteSSHString_filled by (rewrite Hl3, Hl2; sizes).
  cbn [run_bind failure count mem]. unfold ExitSignalRequest_written.
  fold buf2. fold buf3. do 2 f_equal; sizes.
Qed.

Lemma ExitStatusRequest_Write_room (r : ExitStatusRequest.t) (buf enc : list byte) :
  util.AppendVarInt [] (ExitStatusRequest.exitStatus r) = Return enc ->
  length enc <= length buf ->
  ExitStatusRequest.Write r buf
  = Return (Written (length enc) None (filled enc buf)).
Proof.
  intros Henc Hfit. unfold ExitStatusRequest.Write, ExitStatusRequest.Length.
  destruct (util.VarIntLen (ExitStatusRequest.exitStatus r)) as [n|] eqn:Hn.
  - destruct (AppendVarInt_length [] _ _ Hn) as (enc' & Henc' & Hlen).
    rewrite Henc in Henc'. inversion Henc'; subst enc'.
    cbn [run_bind]. rewrite <- Hlen.
    destruct (Nat.ltb_spec (length buf) (length enc)) as [Hsmall|_]; [lia|].
    rewrite Henc. cbn [run_bind]. now rewrite copy_fits.
  - exfalso. unfold util.VarIntLen, util.AppendVarInt in *.
    repeat match type of Hn with
           | context [if ?c then _ else _] => destruct c
           end; discriminate.
Qed.

(** Every write into a buffer at least as long as [Length] reported
    returns without error, counts no more than that length and changes
    nothing from that position on. *)
Lemma Write_room (c : ChannelRequest.t) (buf : list byte) (len : nat) :
  ChannelRequest.Length c = Return len ->
  len <= length buf ->
  exists w, ChannelRequest.Write c buf = Return w
            /\ failure w = None /\ count w <= len /\ frame len buf (mem w).
Proof.
  destruct c as [r|r|r|r|r|r|r|r|r];
    cbn [ChannelRequest.Length ChannelRequest.Write]; intros HL Hfit.
  - rewrite (PtyRequest_Write_room r buf len HL Hfit).
    eexists. split; [reflexivity|]. cbn [failure count mem].
    assert (Hshort : length (PtyRequest_written r) <= len).
    { unfold PtyRequest.Length in HL.
      repeat match type of HL with
             | context [run_bind ?m _] => destruct m; cbn [run_bind] in HL;
                                          [|discriminate]
             end.
      inversion HL. unfold PtyRequest_written. sizes. }
    split; [reflexivity|]. split; [exact Hshort|].
    eapply frame_weaken; [exact Hshort|]. apply frame_filled. lia.
  - assert (Hn : exists n, util.VarIntLen (X11Request.X11ScreenNumber r) = Return n).
    { unfold X11Request.Length in HL.
      destruct (util.VarIntLen (X11Request.X11ScreenNumber r)); [eauto|discriminate]. }
    destruct Hn as (n & Hn).
    destruct (AppendVarInt_length [] _ _ Hn) as (enc & Henc & _). cbn [app] in Henc.
    destruct (X11Request_Write_image r buf enc len HL Henc Hfit) as (Himg & Hw).
    rewrite Hw. eexists. split; [reflexivity|]. cbn [failure count mem].
    split; [reflexivity|]. split; [lia|]. rewrite Himg. apply frame_filled. lia.
  - eexists. split; [reflexivity|]. cbn [failure count mem]. inversion HL.
    split; [reflexivity|]. split; [lia | apply frame_refl].
  - inversion HL; subst len. unfold ExecRequest.Write.
    rewrite WriteSSHString_filled by exact Hfit.
    eexists. split; [reflexivity|]. cbn [failure count mem].
    split; [reflexivity|]. split; [lia|].
    rewrite <- length_wire_string. apply frame_filled. now rewrite length_wire_string.
  - inversion HL; subst len. unfold SubsystemRequest.Write.
    rewrite WriteSSHString_filled by exact Hfit.
    eexists. split; [reflexivity|]. cbn [failure count mem].
    split; [reflexivity|]. split; [lia|].
    rewrite <- length_wire_string. apply frame_filled. now rewrite length_wire_string.
  - rewrite (WindowChangeRequest_Write_room r buf len HL Hfit).
    eexists. split; [reflexivity|]. cbn [failure count mem].
    split; [reflexivity|]. split; [lia | apply frame_refl].
  - inversion HL; subst len. unfold SignalRequest.Write.
    rewrite WriteSSHString_filled by exact Hfit.
    eexists. split; [reflexivity|]. cbn [failure count mem].
    split; [reflexivity|]. split; [lia|].
    rewrite <- length_wire_string. apply frame_filled. now rewrite length_wire_string.
  - assert (Hn : exists n, util.VarIntLen (ExitStatusRequest.exitStatus r) = Return n
                           /\ len = N.to_nat n).
    { unfold ExitStatusRequest.Length in HL.
      destruct (util.VarIntLen (ExitStatusRequest.exitStatus r)) as [n|];
        cbn [run_bind] in HL; [|discriminate].
      inversion HL. eauto. }
    destruct Hn as (n & Hn & ->).
    destruct (AppendVarInt_length [] _ _ Hn) as (enc & Henc & Hlen). cbn [app] in Henc.
    rewrite (ExitStatusRequest_Write_room r buf enc Henc) by lia.
    eexists. split; [reflexivity|]. cbn [failure count mem].
    split; [reflexivity|]. split; [lia|]. rewrite <- Hlen. apply frame_filled. lia.
  - rewrite (ExitSignalRequest_Write_room r buf len HL Hfit).
    eexists. split; [reflexivity|]. cbn [failure count mem].
    split; [reflexivity|]. split; [lia|].
    unfold ExitSignalRequest_written.
    unfold ExitSignalRequest.Length in HL. inversion HL as [Hlen].
    set (img1 := wire_string (ExitSignalRequest.SignalNameWithoutSig r)
                   ++ [flag_byte (ExitSignalRequest.CoreDumped r)]).
    set (buf2 := filled img1 buf).
    assert (H1 : length img1 <= length buf) by (unfold img1; sizes).
    assert (Hl2 : length buf2 = length buf) by (now apply length_filled).
    set (img2 := wire_string (ExitSignalRequest.ErrorMessageUTF8 r)).
    set (buf3 := filled img2 buf2).
    assert (H2 : length img2 <= length buf2) by (rewrite Hl2; unfold img2; sizes).
    assert (Hl3 : length buf3 = length buf2) by (now apply length_filled).
    set (img3 := wire_string (ExitSignalRequest.LanguageTag r)).
    assert (H3 : length img3 <= length buf3) by (rewrite Hl3, Hl2; unfold img3; sizes).
    apply frame_trans with buf2;
      [eapply frame_weaken; [|apply frame_filled; exact H1]; unfold img1; sizes|].
    apply frame_trans with buf3;
      [eapply frame_weaken; [|apply frame_filled; exact H2]; unfold img2; sizes|].
    eapply frame_weaken; [|apply frame_filled; exact H3]. unfold img3; sizes.
Qed.

Lemma on_slice_filled (from : nat) (f : list byte -> run written)
    (img buf : list byte) (w : written) :
  from = length img ->
  length img <= length buf ->
  f (skipn (length img) buf) = Return w ->
  on_slice from f (filled img buf)
  = Return (Written (count w) (failure w) (img ++ mem w)).
Proof.
  intros -> Hfit Hf. unfold on_slice, filled.
  rewrite length_app, length_skipn.
  destruct (Nat.leb_spec (length img) (length img + (length buf - length img)));
    [|lia].
  now rewrite drop_app_length, take_app_length, Hf.
Qed.

Lemma frame_behind (img buf inner : list byte) (p : nat) :
  length img <= length buf ->
  frame p (skipn (length img) buf) inner ->
  frame (length img + p) buf (img ++ inner).
Proof.
  intros Hfit [Hl Hs]. split.
  - rewrite length_app, Hl, length_skipn. lia.
  - rewrite Nat.add_comm, <- !skipn_skipn, drop_app_length. now rewrite Hs.
Qed.

(** The bytes the envelope writes before it hands over to the payload. *)
Lemma envelope_header (m : ChannelRequestMessage.t) (buf : list byte) (n : nat) :
  ChannelRequest.Length (ChannelRequestMessage.request m) = Return n ->
  1 + util.SSHStringLen (ChannelRequest.RequestTypeStr (ChannelRequestMessage.request m))
    + 1 + n <= length buf ->
  let img := ([SSH_MSG_CHANNEL_REQUEST]
                ++ wire_string (ChannelRequest.RequestTypeStr
                                  (ChannelRequestMessage.request m)))
               ++ [flag_byte (ChannelRequestMessage.wantReply m)] in
  ChannelRequestMessage.Write m buf
  = (w <~ on_slice (length img)
            (ChannelRequest.Write (ChannelRequestMessage.request m))
            (filled img buf);
     match failure w with
     | Some e => Return (Written 0 (Some e) (mem w))
     | None => Return (Written (length img + count w) None (mem w))
     end).
Proof.
  intros Hn Hfit img. unfold ChannelRequestMessage.Write, ChannelRequestMessage.Length.
  rewrite Hn. cbn [run_bind].
  match goal with
  | |- context [length buf <? ?x] =>
      destruct (Nat.ltb_spec (length buf) x) as [Hsmall|_]; [lia|]
  end.
  assert (Hfirst : store buf 0 SSH_MSG_CHANNEL_REQUEST
                   = Return (filled [SSH_MSG_CHANNEL_REQUEST] buf)).
  { apply (step_store [] buf 0 SSH_MSG_CHANNEL_REQUEST eq_refl). lia. }
  rewrite Hfirst. cbn [run_bind app].
  rewrite (step_slice [SSH_MSG_CHANNEL_REQUEST] buf
             (wire_string (ChannelRequest.RequestTypeStr
                             (ChannelRequestMessage.request m))));
    [| reflexivity | sizes | intros dst; apply WriteSSHString_fits ].
  cbn [run_bind failure count mem]. rewrite store_flag_byte.
  rewrite (step_store _ buf); [| sizes | sizes ].
  cbn [run_bind]. fold img.
  assert (Himg : 0 + 1 + length (wire_string (ChannelRequest.RequestTypeStr
                                               (ChannelRequestMessage.request m))) + 1
                 = length img) by (unfold img; sizes).
  rewrite Himg. reflexivity.
Qed.

(** The envelope written into a buffer at least as long as its [Length]
    returns without error, counts no more than that length and changes
    nothing from that position on. *)
Lemma envelope_Write_room (m : ChannelRequestMessage.t) (buf : list byte) (len : nat) :
  ChannelRequestMessage.Length m = Return len ->
  len <= length buf ->
  exists w, ChannelRequestMessage.Write m buf = Return w
            /\ failure w = None /\ count w <= len /\ frame len buf (mem w).
Proof.
  intros HL Hfit. unfold ChannelRequestMessage.Length in HL.
  destruct (ChannelRequest.Length (ChannelRequestMessage.request m)) as [n|] eqn:Hn;
    cbn [run_bind] in HL; [|discriminate].
  inversion HL; subst len. clear HL.
  rewrite (envelope_header m buf n Hn Hfit). cbv zeta.
  set (img := ([SSH_MSG_CHANNEL_REQUEST]
                ++ wire_string (ChannelRequest.RequestTypeStr
                                  (ChannelRequestMessage.request m)))
               ++ [flag_byte (ChannelRequestMessage.wantReply m)]).
  assert (Himg : length img
                 = 1 + util.SSHStringLen (ChannelRequest.RequestTypeStr
                                            (ChannelRequestMessage.request m)) + 1)
    by (unfold img; sizes).
  destruct (Write_room (ChannelRequestMessage.request m)
              (skipn (length img) buf) n Hn) as (w2 & Hw2 & Hf2 & Hc2 & Hfr2).
  { rewrite length_skipn. sizes. }
  rewrite (on_slice_filled _ _ img buf w2 eq_refl) by (exact Hw2 || sizes).
  cbn [run_bind failure count mem]. rewrite Hf2.
  eexists. split; [reflexivity|]. cbn [failure count mem].
  split; [reflexivity|]. split; [sizes|].
  eapply frame_weaken; [|apply frame_behind; [|exact Hfr2]]; sizes.
Qed.

(** ** What a write with room delivers *)

(** X1: for the seven structs that do not run the dropping loop, a write
    into a buffer at least as long as [Length] reported returns without
    error, counts exactly that length and leaves the size of the buffer and
    every byte from that position on as they were. *)
Theorem Write_with_room_is_exact (c : ChannelRequest.t) (buf : list byte) (len : nat) :
  drops_varints c = false ->
  ChannelRequest.Length c = Return len ->
  len <= length buf ->
  exists w, ChannelRequest.Write c buf = Return w
            /\ failure w = None /\ count w = len /\ frame len buf (mem w).
Proof.
  intros Hkeep HL Hfit.
  destruct (Write_room c buf len HL Hfit) as (w & Hw & Hf & _ & _).
  destruct (Write_exact_unless_varints_dropped c buf w len Hkeep HL Hw Hf) as (Hc & Hfr).
  exists w. auto.
Qed.

Lemma Write_with_room_is_exact_witness :
  exists w, ChannelRequest.Write (X11 (X11Request.Build true "MIT" "c0" 70000))
              (make 24 ++ [x2a]) = Return w
            /\ failure w = None /\ count w = 18
            /\ frame 18 (make 24 ++ [x2a]) (mem w).
Proof.
  apply (Write_with_room_is_exact (X11 (X11Request.Build true "MIT" "c0" 70000))
           (make 24 ++ [x2a]) 18); [reflexivity | reflexivity | vm_compute; lia].
Defined.

(** X2: the same for the envelope around such a struct: with room, its
    [Write] returns without error exactly its [Length] and touches nothing
    from there on. *)
Theorem envelope_Write_with_room_is_exact (m : ChannelRequestMessage.t)
    (buf : list byte) (len : nat) :
  drops_varints (ChannelRequestMessage.request m) = false ->
  ChannelRequestMessage.Length m = Return len ->
  len <= length buf ->
  exists w, ChannelRequestMessage.Write m buf = Return w
            /\ failure w = None /\ count w = len /\ frame len buf (mem w).
Proof.
  intros Hkeep HL Hfit.
  destruct (envelope_Write_room m buf len HL Hfit) as (w & Hw & Hf & _ & _).
  destruct (ChannelRequestMessage_Write_exact m buf w len Hkeep HL Hw Hf) as (Hc & Hfr).
  exists w. auto.
Qed.

Lemma envelope_Write_with_room_is_exact_witness :
  exists w, ChannelRequestMessage.Write
              (ChannelRequestMessage.Build false (Subsystem (SubsystemRequest.Build "sftp")))
              (make 30) = Return w
            /\ failure w = None /\ count w = 23 /\ frame 23 (make 30) (mem w).
Proof.
  apply (envelope_Write_with_room_is_exact
           (ChannelRequestMessage.Build false (Subsystem (SubsystemRequest.Build "sftp")))
           (make 30) 23); [reflexivity | reflexivity | vm_compute; lia].
Defined.

Lemma Write_short_when_varints_dropped_witness :
  count (Written 13 None (be_bytes 4 5 ++ list_byte_of_string "xterm" ++ make 11)) + 4
  <= 20.
Proof.
  apply (Write_short_when_varints_dropped (Pty pty_xterm) (make 20)
           (Written 13 None (be_bytes 4 5 ++ list_byte_of_string "xterm" ++ make 11)) 20);
    reflexivity.
Defined.

(** X4: a window-change write never counts a byte and never changes the
    buffer, whether it returns an error or not. *)
Theorem WindowChangeRequest_Write_changes_nothing (r : WindowChangeRequest.t)
    (buf : list byte) (w : written) :
  WindowChangeRequest.Write r buf = Return w ->
  count w = 0 /\ mem w = buf.
Proof.
  intros H. destruct (failure w) eqn:Hf.
  - unfold WindowChangeRequest.Write in H.
    destruct (WindowChangeRequest.Length r) as [len|]; cbn [run_bind] in H;
      [|discriminate].
    destruct (length buf <? len).
    + inversion H. auto.
    + repeat match type of H with
             | context [run_bind ?m _] =>
                 destruct m; cbn [run_bind] in H; [|discriminate]
             end.
      inversion H; subst. discriminate.
  - exact (WindowChangeRequest_Write_silent r buf w H Hf).
Qed.

Lemma WindowChangeRequest_Write_changes_nothing_witness :
  count (Written 0 None (make 7 ++ [x2a])) = 0
  /\ mem (Written 0 None (make 7 ++ [x2a])) = make 7 ++ [x2a].
Proof.
  apply (WindowChangeRequest_Write_changes_nothing window_80_24 (make 7 ++ [x2a])).
  reflexivity.
Defined.

(** X5: what a pty write produces does not depend on the four dimensions:
    two requests with the same terminal name and the same modes, written
    into the same buffer with room for either, give the same result. *)
Theorem PtyRequest_Write_ignores_dimensions (r r' : PtyRequest.t)
    (buf : list byte) (len len' : nat) :
  PtyRequest.Term r = PtyRequest.Term r' ->
  PtyRequest.EncodedTerminalModes r = PtyRequest.EncodedTerminalModes r' ->
  PtyRequest.Length r = Return len -> len <= length buf ->
  PtyRequest.Length r' = Return len' -> len' <= length buf ->
  PtyRequest.Write r buf = PtyRequest.Write r' buf.
Proof.
  intros Ht Hm HL Hfit HL' Hfit'.
  rewrite (PtyRequest_Write_room r buf len HL Hfit).
  rewrite (PtyRequest_Write_room r' buf len' HL' Hfit').
  unfold PtyRequest_written. now rewrite Ht, Hm.
Qed.

Lemma PtyRequest_Write_ignores_dimensions_witness :
  PtyRequest.Write pty_xterm (make 32)
  = PtyRequest.Write (PtyRequest.Build "xterm" 1 70000 3 4 "") (make 32).
Proof.
  apply (PtyRequest_Write_ignores_dimensions pty_xterm
           (PtyRequest.Build "xterm" 1 70000 3 4 "") (make 32) 20 20);
    try reflexivity; vm_compute; lia.
Defined.

(** X6: after an exit-signal write with room the buffer starts with the
    encoding of the language tag, the string written last from position 0,
    while the count returned is the full [Length]. *)
Theorem ExitSignalRequest_Write_starts_with_language_tag (r : ExitSignalRequest.t)
    (buf : list byte) (len : nat) :
  ExitSignalRequest.Length r = Return len ->
  len <= length buf ->
  exists w, ExitSignalRequest.Write r buf = Return w
            /\ failure w = None /\ count w = len
            /\ firstn (util.SSHStringLen (ExitSignalRequest.LanguageTag r)) (mem w)
               = wire_string (ExitSignalRequest.LanguageTag r).
Proof.
  intros HL Hfit. rewrite (ExitSignalRequest_Write_room r buf len HL Hfit).
  eexists. split; [reflexivity|]. cbn [failure count mem].
  split; [reflexivity|]. split; [reflexivity|].
  unfold ExitSignalRequest_written. unfold filled at 1.
  rewrite <- length_wire_string. apply take_app_length.
Qed.

Lemma ExitSignalRequest_Write_starts_with_language_tag_witness :
  exists w, ExitSignalRequest.Write exit_signal_KILL (make 25) = Return w
            /\ failure w = None /\ count w = 25
            /\ firstn 6 (mem w) = wire_string "en".
Proof.
  apply (ExitSignalRequest_Write_starts_with_language_tag exit_signal_KILL (make 25) 25);
    [reflexivity | vm_compute; lia].
Defined.

(** ** The one way a write fails *)

Lemma Write_returns_Length (c : ChannelRequest.t) (buf : list byte) (w : written) :
  ChannelRequest.Write c buf = Return w ->
  exists len, ChannelRequest.Length c = Return len.
Proof.
  destruct c as [r|r|r|r|r|r|r|r|r];
    cbn [ChannelRequest.Length ChannelRequest.Write];
    unfold PtyRequest.Write, X11Request.Write, WindowChangeRequest.Write,
      ExitStatusRequest.Write, ExitSignalRequest.Write,
      ShellRequest.Length, ExecRequest.Length, SubsystemRequest.Length,
      SignalRequest.Length;
    intros H; eauto;
    match type of H with
    | run_bind ?m _ = _ => destruct m; [eauto | discriminate]
    end.
Qed.

Lemma Write_small (c : ChannelRequest.t) (buf : list byte) (len : nat) :
  ChannelRequest.Length c = Return len ->
  length buf < len ->
  exists e, ChannelRequest.Write c buf = Return (Written 0 (Some e) buf).
Proof.
  destruct c as [r|r|r|r|r|r|r|r|r];
    cbn [ChannelRequest.Length ChannelRequest.Write]; intros HL Hsmall;
    unfold PtyRequest.Write, X11Request.Write, WindowChangeRequest.Write,
      ExitStatusRequest.Write, ExitSignalRequest.Write,
      ExecRequest.Write, SubsystemRequest.Write, SignalRequest.Write;
    try (rewrite HL; cbn [run_bind];
         destruct (Nat.ltb_spec (length buf) len); [eauto | lia]);
    try (inversion HL; subst len; rewrite WriteSSHString_small by exact Hsmall; eauto).
  inversion HL. lia.
Qed.

(** X7: a payload write returns an error only when the buffer is shorter
    than [Length] reported, and then it counts nothing and leaves the
    buffer as it found it. *)
Theorem Write_fails_only_for_lack_of_room (c : ChannelRequest.t) (buf : list byte)
    (w : written) (e : error) :
  ChannelRequest.Write c buf = Return w ->
  failure w = Some e ->
  count w = 0 /\ mem w = buf
  /\ exists len, ChannelRequest.Length c = Return len /\ length buf < len.
Proof.
  intros Hw Hf. destruct (Write_returns_Length c buf w Hw) as (len & HL).
  destruct (Nat.lt_ge_cases (length buf) len) as [Hsmall|Hfit].
  - destruct (Write_small c buf len HL Hsmall) as (e' & Hw').
    rewrite Hw' in Hw. inversion Hw; subst w. cbn. eauto.
  - destruct (Write_room c buf len HL Hfit) as (w' & Hw' & Hf' & _).
    rewrite Hw' in Hw. inversion Hw; subst w'. congruence.
Qed.

Lemma Write_fails_only_for_lack_of_room_witness :
  count (Written 0 (Some BufferTooSmall) (make 9)) = 0
  /\ mem (Written 0 (Some BufferTooSmall) (make 9)) = make 9
  /\ exists len, ChannelRequest.Length (Exec (ExecRequest.Build "ls -la")) = Return len
                 /\ length (make 9) < len.
Proof.
  apply (Write_fails_only_for_lack_of_room (Exec (ExecRequest.Build "ls -la"))
           (make 9) _ BufferTooSmall); reflexivity.
Defined.

(** X8: the envelope's [Write] returns an error only when the buffer is
    shorter than its [Length]; the error is then its own, it counts
    nothing and the buffer is untouched.  The checks further in, of the tag
    string and of the payload, never fire. *)
Theorem envelope_Write_fails_only_for_lack_of_room (m : ChannelRequestMessage.t)
    (buf : list byte) (w : written) (e : error) :
  ChannelRequestMessage.Write m buf = Return w ->
  failure w = Some e ->
  exists len, ChannelRequestMessage.Length m = Return len
              /\ length buf < len
              /\ w = Written 0 (Some (Errorf_buffer_too_small (length buf) len)) buf.
Proof.
  intros Hw Hf.
  destruct (ChannelRequestMessage.Length m) as [len|] eqn:HL.
  2:{ unfold ChannelRequestMessage.Write in Hw. rewrite HL in Hw. discriminate. }
  exists len. split; [reflexivity|].
  destruct (Nat.lt_ge_cases (length buf) len) as [Hsmall|Hfit].
  - split; [exact Hsmall|].
    unfold ChannelRequestMessage.Write in Hw. rewrite HL in Hw. cbn [run_bind] in Hw.
    destruct (Nat.ltb_spec (length buf) len); [|lia]. now inversion Hw.
  - destruct (envelope_Write_room m buf len HL Hfit) as (w' & Hw' & Hf' & _).
    rewrite Hw' in Hw. inversion Hw; subst w'. congruence.
Qed.

Lemma envelope_Write_fails_only_for_lack_of_room_witness :
  exists len, ChannelRequestMessage.Length exec_ls = Return len
              /\ length (make 3) < len
              /\ Written 0 (Some (Errorf_buffer_too_small 3 20)) (make 3)
                 = Written 0 (Some (Errorf_buffer_too_small (length (make 3)) len))
                     (make 3).
Proof.
  apply (envelope_Write_fails_only_for_lack_of_room exec_ls (make 3)
           (Written 0 (Some (Errorf_buffer_too_small 3 20)) (make 3))
           (Errorf_buffer_too_small 3 20)); reflexivity.
Defined.

(** ** What the registry resolves *)

Lemma registry_lookup_inv (tag : string) (f : decoder io_Reader ChannelRequest.t) :
  ChannelRequestParseFuncs !! tag = Some f ->
  (tag = "pty-req" /\ f = ParsePtyRequest)
  \/ (tag = "x11-req" /\ f = ParseX11Request)
  \/ (tag = "shell" /\ f = ParseShellRequest)
  \/ (tag = "exec" /\ f = ParseExecRequest)
  \/ (tag = "subsystem" /\ f = ParseSubsystemRequest)
  \/ (tag = "window-change" /\ f = ParseWindowChangeRequest)
  \/ (tag = "signal" /\ f = ParseSignalRequest).
Proof.
  intros H. unfold ChannelRequestParseFuncs in H.
  apply elem_of_list_to_map_2 in H.
  repeat (apply elem_of_cons in H as [H|H]; [inversion H; subst; tauto|]).
  now apply elem_of_nil in H.
Qed.

(** X9: a tag resolves in the registry exactly when it is one of the seven
    registered ones; every other string, "exit-status" and "exit-signal"
    among them, resolves to nothing. *)
Theorem registry_resolves_exactly_seven (tag : string) :
  is_Some (ChannelRequestParseFuncs !! tag) <-> In tag registered_tags.
Proof.
  split.
  - intros [f Hf]. apply registry_lookup_inv in Hf. unfold registered_tags.
    cbn [In]. intuition (subst; auto).
  - unfold registered_tags. cbn [In].
    intros [<-|[<-|[<-|[<-|[<-|[<-|[<-|[]]]]]]]]; eexists; reflexivity.
Qed.

Ltac dec_inv H :=
  unfold dec_bind, dec_ret, dec_fail, ParseSSHString_or_ErrAdvanceTooFar in H;
  repeat match type of H with
         | context [match ?m with _ => _ end] =>
             lazymatch m with
             | context [match _ with _ => _ end] => fail
             | _ => destruct m eqn:?
             end
         end;
  try discriminate.

(** A decoder of the registry that succeeds returns the struct whose tag
    it is registered under. *)
Lemma registered_decoder_tag (tag : string) (f : decoder io_Reader ChannelRequest.t)
    (buf buf' : io_Reader) (c : ChannelRequest.t) :
  ChannelRequestParseFuncs !! tag = Some f ->
  f buf = (Ok c, buf') ->
  ChannelRequest.RequestTypeStr c = tag
  /\ match c with ExitStatus _ | ExitSignal _ => False | _ => True end.
Proof.
  intros Hf H. apply registry_lookup_inv in Hf.
  destruct Hf as [[-> ->]|[[-> ->]|[[-> ->]|[[-> ->]|[[-> ->]|[[-> ->]|[-> ->]]]]]]].
  - unfold ParsePtyRequest, dec_bind, dec_ret in H.
    destruct (util.ParseSSHString buf) as [[term|e] b1]; [|discriminate].
    match type of H with
    | context [with_bufio ?d ?b] =>
        destruct (with_bufio d b) as [[[[[w h] pw] ph]|e] b2]; [|discriminate]
    end.
    destruct (util.ParseSSHString b2) as [[modes|e] b3]; [|discriminate].
    inversion H; subst. now split.
  - unfold ParseX11Request in H. dec_inv H. inversion H; subst. now split.
  - unfold ParseShellRequest in H. dec_inv H. inversion H; subst. now split.
  - unfold ParseExecRequest in H. dec_inv H. inversion H; subst. now split.
  - unfold ParseSubsystemRequest in H. dec_inv H. inversion H; subst. now split.
  - unfold ParseWindowChangeRequest, with_bufio, dec_bind, dec_ret in H.
    destruct (util.ReadVarInt (bufio_NewReader buf)) as [[w|e] b1]; [|discriminate].
    destruct (util.ReadVarInt b1) as [[h|e] b2]; [|discriminate].
    destruct (util.ReadVarInt b2) as [[pw|e] b3]; [|discriminate].
    destruct (util.ReadVarInt b3) as [[ph|e] b4]; [|discriminate].
    inversion H; subst. now split.
  - unfold ParseSignalRequest in H. dec_inv H. inversion H; subst. now split.
Qed.

Lemma ParseRequestMessage_ok_inv (buf buf' : io_Reader) (m : ChannelRequestMessage.t) :
  ParseRequestMessage buf = (Ok m, buf') ->
  exists requestType buf1 wantReply buf2 parseFunc,
    util.ParseSSHString buf = (Ok requestType, buf1)
    /\ binary_Read_bool buf1 = (Ok wantReply, buf2)
    /\ ChannelRequestParseFuncs !! requestType = Some parseFunc
    /\ parseFunc buf2 = (Ok (ChannelRequestMessage.request m), buf')
    /\ ChannelRequestMessage.wantReply m = wantReply.
Proof.
  unfold ParseRequestMessage, dec_bind, dec_fail, dec_ret.
  destruct (util.ParseSSHString buf) as [[requestType|e0] buf1] eqn:Htag; [|discriminate].
  destruct (binary_Read_bool buf1) as [[wantReply|e1] buf2] eqn:Hflag; [|discriminate].
  destruct (ChannelRequestParseFuncs !! requestType) as [parseFunc|] eqn:Hfun;
    [|discriminate].
  destruct (parseFunc buf2) as [[c|e2] buf3] eqn:Hp; [|discriminate].
  intros H. inversion H; subst. cbn.
  exists requestType, buf1, wantReply, buf2, parseFunc. auto.
Qed.

(** X10: an envelope that was decoded carries a payload whose own tag is
    the tag that was read from the stream; written again, it goes out
    under the tag it came in with. *)
Theorem parsed_envelope_keeps_its_tag (buf buf' : io_Reader)
    (m : ChannelRequestMessage.t) :
  ParseRequestMessage buf = (Ok m, buf') ->
  exists buf1,
    util.ParseSSHString buf
    = (Ok (ChannelRequest.RequestTypeStr (ChannelRequestMessage.request m)), buf1).
Proof.
  intros H.
  destruct (ParseRequestMessage_ok_inv _ _ _ H)
    as (tag & buf1 & w & buf2 & f & Htag & _ & Hf & Hp & _).
  destruct (registered_decoder_tag _ _ _ _ _ Hf Hp) as [<- _]. eauto.
Qed.

Lemma parsed_envelope_keeps_its_tag_witness :
  exists buf1,
    util.ParseSSHString (Reader (skipn 1 exec_ls_wire) false)
    = (Ok (ChannelRequest.RequestTypeStr (ChannelRequestMessage.request exec_ls)), buf1).
Proof.
  apply (parsed_envelope_keeps_its_tag (Reader (skipn 1 exec_ls_wire) false)
           (Reader [] false) exec_ls).
  reflexivity.
Defined.

(** X11: the envelope decoder never yields an exit-status or an
    exit-signal payload, whatever the stream holds: their decoders are not
    reachable through the registry. *)
Theorem parsed_envelope_is_never_an_exit (buf buf' : io_Reader)
    (m : ChannelRequestMessage.t) :
  ParseRequestMessage buf = (Ok m, buf') ->
  match ChannelRequestMessage.request m with
  | ExitStatus _ | ExitSignal _ => False
  | _ => True
  end.
Proof.
  intros H.
  destruct (ParseRequestMessage_ok_inv _ _ _ H)
    as (tag & buf1 & w & buf2 & f & _ & _ & Hf & Hp & _).
  now destruct (registered_decoder_tag _ _ _ _ _ Hf Hp).
Qed.

Lemma parsed_envelope_is_never_an_exit_witness :
  match ChannelRequestMessage.request exec_ls with
  | ExitStatus _ | ExitSignal _ => False
  | _ => True
  end.
Proof.
  apply (parsed_envelope_is_never_an_exit (Reader (skipn 1 exec_ls_wire) false)
           (Reader [] false) exec_ls).
  reflexivity.
Defined.

(** ** Errors of the string decoders *)

(** X12: the decoders for exec, subsystem and signal report every failure
    as [bufio.ErrAdvanceTooFar], whatever went wrong beneath; the
    exit-signal decoder does so for its three strings and lets only the
    [io.EOF] of its flag byte through. *)
Theorem string_decoders_report_ErrAdvanceTooFar (buf buf' : io_Reader) (e : error) :
  (ParseExecRequest buf = (Err e, buf') -> e = bufio_ErrAdvanceTooFar)
  /\ (ParseSubsystemRequest buf = (Err e, buf') -> e = bufio_ErrAdvanceTooFar)
  /\ (ParseSignalRequest buf = (Err e, buf') -> e = bufio_ErrAdvanceTooFar)
  /\ (ParseExitSignalRequest buf = (Err e, buf') ->
      e = bufio_ErrAdvanceTooFar \/ e = io_EOF).
Proof.
  repeat split.
  - unfold ParseExecRequest. intros H. dec_inv H. now inversion H.
  - unfold ParseSubsystemRequest. intros H. dec_inv H. now inversion H.
  - unfold ParseSignalRequest. intros H. dec_inv H. now inversion H.
  - unfold ParseExitSignalRequest, binary_Read_bool. intros H. dec_inv H;
      inversion H; auto.
Qed.

Lemma string_decoders_report_ErrAdvanceTooFar_witness :
  ParseExecRequest (bytes_NewReader (be_bytes 4 10 ++ list_byte_of_string "ls "))
  = (Err bufio_ErrAdvanceTooFar, Reader [] false)
  /\ bufio_ErrAdvanceTooFar = bufio_ErrAdvanceTooFar.
Proof.
  split; [reflexivity|].
  apply (proj1 (string_decoders_report_ErrAdvanceTooFar
                  (bytes_NewReader (be_bytes 4 10 ++ list_byte_of_string "ls "))
                  (Reader [] false) bufio_ErrAdvanceTooFar)).
  reflexivity.
Defined.

(** ** Byte readers: reading through, and reading ahead *)

Lemma ReadByte_direct (b b' : bufio_Reader) (r : result byte) :
  direct b -> ReadByte b = (r, b') -> direct b'.
Proof.
  intros [Hh Hk]. unfold ReadByte. rewrite Hh, Hk.
  destruct (unread (rd b)) as [|x xs]; intros H; inversion H; subst.
  - now split.
  - split; [reflexivity | exact Hk].
Qed.

Lemma read_bytes_direct (n : nat) (b b' : bufio_Reader) (r : result (list byte)) :
  direct b -> util.read_bytes n b = (r, b') -> direct b'.
Proof.
  revert b b' r. induction n as [|n IH]; intros b b' r Hd; cbn [util.read_bytes].
  - unfold dec_ret. intros H. now inversion H; subst.
  - destruct (ReadByte b) as [[x|e] b1] eqn:H1.
    + pose proof (ReadByte_direct _ _ _ Hd H1) as Hd1.
      destruct (util.read_bytes n b1) as [[xs|e] b2] eqn:H2;
        pose proof (IH _ _ _ Hd1 H2) as Hd2;
        intros H; now inversion H; subst.
    + pose proof (ReadByte_direct _ _ _ Hd H1) as Hd1.
      intros H. now inversion H; subst.
Qed.

Lemma ReadVarInt_direct (b b' : bufio_Reader) (r : result N) :
  direct b -> util.ReadVarInt b = (r, b') -> direct b'.
Proof.
  intros Hd. unfold util.ReadVarInt, dec_bind, dec_ret.
  destruct (util.read_bytes 1 b) as [[first|e] b1] eqn:H1;
    pose proof (read_bytes_direct _ _ _ _ Hd H1) as Hd1.
  - match goal with
    | |- context [util.read_bytes ?n b1] =>
        destruct (util.read_bytes n b1) as [[rest|e] b2] eqn:H2;
        pose proof (read_bytes_direct _ _ _ _ Hd1 H2) as Hd2
    end; intros H; now inversion H; subst.
  - intros H. now inversion H; subst.
Qed.

Lemma direct_pending (b : bufio_Reader) :
  direct b -> b = BufReader [] (Reader (pending b) true).
Proof.
  destruct b as [h [u k]]. unfold direct, pending. cbn.
  intros [-> ->]. reflexivity.
Qed.

(** Through a reader that is itself buffered a varint is read without
    taking anything more: what follows the encoding is still there. *)
Lemma ReadVarInt_through (i : N) (enc rest : list byte) :
  util.AppendVarInt [] i = Return enc ->
  util.ReadVarInt (BufReader [] (Reader (enc ++ rest) true))
  = (Ok i, BufReader [] (Reader rest true)).
Proof.
  intros Henc.
  destruct (ReadVarInt_AppendVarInt i enc rest
              (BufReader [] (Reader (enc ++ rest) true)) Henc eq_refl)
    as (b' & Hb' & Hp).
  rewrite Hb'. f_equal.
  assert (Hd : direct b').
  { apply (ReadVarInt_direct (BufReader [] (Reader (enc ++ rest) true)) b' (Ok i));
      [now split | exact Hb']. }
  rewrite (direct_pending b' Hd). now rewrite Hp.
Qed.

Lemma ReadByte_spent (b b' : bufio_Reader) (r : result byte) :
  spent b -> ReadByte b = (r, b') -> spent b'.
Proof.
  intros [Hk Hu]. unfold ReadByte. rewrite Hk, Hu.
  destruct (held b) as [|x xs]; cbn [firstn]; intros H; inversion H; subst.
  - now split.
  - now split.
Qed.

Lemma ReadByte_small_plain (b b' : bufio_Reader) (x : byte) :
  small_plain b -> ReadByte b = (Ok x, b') -> spent b'.
Proof.
  intros (Hk & Hlen & Hheld). unfold ReadByte. rewrite Hk.
  destruct (held b) as [|h hs] eqn:Hh.
  - destruct (firstn defaultBufSize (unread (rd b))) as [|y ys]; [discriminate|].
    intros H. inversion H; subst. split; [exact Hk|].
    cbn [rd advance unread]. apply skipn_all2. exact Hlen.
  - intros H. inversion H; subst. split; [exact Hk|].
    cbn [rd]. apply Hheld. discriminate.
Qed.

Lemma read_bytes_spent (n : nat) (b b' : bufio_Reader) (r : result (list byte)) :
  spent b -> util.read_bytes n b = (r, b') -> spent b'.
Proof.
  revert b b' r. induction n as [|n IH]; intros b b' r Hs; cbn [util.read_bytes].
  - unfold dec_ret. intros H. now inversion H; subst.
  - destruct (ReadByte b) as [[x|e] b1] eqn:H1;
      pose proof (ReadByte_spent _ _ _ Hs H1) as Hs1.
    + destruct (util.read_bytes n b1) as [[xs|e] b2] eqn:H2;
        pose proof (IH _ _ _ Hs1 H2) as Hs2;
        intros H; now inversion H; subst.
    + intros H. now inversion H; subst.
Qed.

Lemma ReadVarInt_spent (b b' : bufio_Reader) (r : result N) :
  spent b -> util.ReadVarInt b = (r, b') -> spent b'.
Proof.
  intros Hs. unfold util.ReadVarInt, dec_bind, dec_ret.
  destruct (util.read_bytes 1 b) as [[first|e] b1] eqn:H1;
    pose proof (read_bytes_spent _ _ _ _ Hs H1) as Hs1.
  - match goal with
    | |- context [util.read_bytes ?n b1] =>
        destruct (util.read_bytes n b1) as [[rest|e] b2] eqn:H2;
        pose proof (read_bytes_spent _ _ _ _ Hs1 H2) as Hs2
    end; intros H; now inversion H; subst.
  - intros H. now inversion H; subst.
Qed.

(** A varint read with success through a fresh wrapper over a plain reader
    of at most one buffer's worth leaves that reader with nothing. *)
Lemma ReadVarInt_small_plain (b b' : bufio_Reader) (i : N) :
  small_plain b -> util.ReadVarInt b = (Ok i, b') -> spent b'.
Proof.
  intros Hp. unfold util.ReadVarInt, dec_bind, dec_ret.
  cbn [util.read_bytes].
  destruct (ReadByte b) as [[x|e] b1] eqn:H1; [|discriminate].
  pose proof (ReadByte_small_plain _ _ _ Hp H1) as Hs1.
  unfold dec_ret.
  match goal with
  | |- context [util.read_bytes ?n b1] =>
      destruct (util.read_bytes n b1) as [[rest|e] b2] eqn:H2;
      pose proof (read_bytes_spent _ _ _ _ Hs1 H2) as Hs2
  end; intros H; now inversion H; subst.
Qed.

Lemma small_plain_NewReader (bs : list byte) :
  length bs <= defaultBufSize -> small_plain (bufio_NewReader (Reader bs false)).
Proof. intros H. split; [reflexivity|]. split; [exact H|]. now intros []. Qed.

Lemma spent_rd (b : bufio_Reader) : spent b -> rd b = Reader [] false.
Proof. destruct b as [h [u k]]. unfold spent. cbn. now intros [-> ->]. Qed.

Lemma ParseSSHString_ok_inv (buf buf1 : io_Reader) (s : string) :
  util.ParseSSHString buf = (Ok s, buf1) ->
  buffered buf1 = buffered buf /\ length (unread buf1) <= length (unread buf).
Proof.
  unfold util.ParseSSHString.
  destruct (unread buf) as [|b0 [|b1 [|b2 [|b3 rest]]]] eqn:Hu; try discriminate.
  destruct (N.ltb _ _); [discriminate|].
  intros H. inversion H; subst. unfold advance. cbn [buffered unread].
  split; [reflexivity|]. rewrite Hu, length_skipn. lia.
Qed.

Lemma binary_Read_bool_ok_inv (buf buf1 : io_Reader) (v : bool) :
  binary_Read_bool buf = (Ok v, buf1) ->
  buffered buf1 = buffered buf /\ length (unread buf1) <= length (unread buf).
Proof.
  unfold binary_Read_bool. destruct (unread buf) as [|b rest] eqn:Hu; [discriminate|].
  intros H. inversion H; subst. unfold advance. cbn [buffered unread].
  split; [reflexivity|]. rewrite Hu, length_skipn. lia.
Qed.

Lemma small_plain_of (buf : io_Reader) :
  buffered buf = false -> length (unread buf) <= defaultBufSize ->
  small_plain (bufio_NewReader buf).
Proof.
  destruct buf as [u k]. cbn. intros -> H. now apply small_plain_NewReader.
Qed.

(** ** The pty decoder and the two kinds of reader *)

(** X13: over a plain in-memory reader that holds no more than one
    [bufio] buffer (4096 bytes) the pty decoder never succeeds: the
    wrapper it reads the four varints through takes everything with it, and
    the terminal modes are then read from a reader that has nothing left. *)
Theorem ParsePtyRequest_fails_over_plain_reader (bs : list byte) :
  length bs <= defaultBufSize ->
  exists e buf', ParsePtyRequest (Reader bs false) = (Err e, buf').
Proof.
  intros Hlen. unfold ParsePtyRequest, dec_bind.
  destruct (util.ParseSSHString (Reader bs false)) as [[term|e] b1] eqn:Ht; [|eauto].
  apply ParseSSHString_ok_inv in Ht as [Hk Hl]. cbn [buffered unread] in Hk, Hl.
  pose proof (small_plain_of b1 Hk ltac:(lia)) as Hp.
  unfold with_bufio, dec_bind, dec_ret.
  destruct (util.ReadVarInt (bufio_NewReader b1)) as [[w|e] b2] eqn:H1; [|eauto].
  pose proof (ReadVarInt_small_plain _ _ _ Hp H1) as Hs2.
  destruct (util.ReadVarInt b2) as [[h|e] b3] eqn:H2; [|eauto].
  pose proof (ReadVarInt_spent _ _ _ Hs2 H2) as Hs3.
  destruct (util.ReadVarInt b3) as [[pw|e] b4] eqn:H3; [|eauto].
  pose proof (ReadVarInt_spent _ _ _ Hs3 H3) as Hs4.
  destruct (util.ReadVarInt b4) as [[ph|e] b5] eqn:H4; [|eauto].
  pose proof (ReadVarInt_spent _ _ _ Hs4 H4) as Hs5.
  rewrite (spent_rd b5 Hs5). cbn. eauto.
Qed.

Lemma ParsePtyRequest_fails_over_plain_reader_witness :
  exists e buf', ParsePtyRequest (Reader pty_xterm_wire false) = (Err e, buf').
Proof.
  apply (ParsePtyRequest_fails_over_plain_reader pty_xterm_wire).
  vm_compute. lia.
Defined.

(** X14: the decoders that end with a varint (window change, exit status,
    X11), when they succeed over a plain reader that held no more than one
    buffer, leave that reader with nothing: whatever followed the request
    in the stream went into the wrapper and is gone with it. *)
Theorem varint_decoders_drain_plain_reader (bs : list byte)
    (c : ChannelRequest.t) (buf' : io_Reader) :
  length bs <= defaultBufSize ->
  (ParseWindowChangeRequest (Reader bs false) = (Ok c, buf') \/
   ParseExitStatusRequest (Reader bs false) = (Ok c, buf') \/
   ParseX11Request (Reader bs false) = (Ok c, buf')) ->
  buf' = Reader [] false.
Proof.
  intros Hlen [H|[H|H]].
  - unfold ParseWindowChangeRequest, with_bufio, dec_bind, dec_ret in H.
    pose proof (small_plain_NewReader bs Hlen) as Hp.
    destruct (util.ReadVarInt (bufio_NewReader (Reader bs false))) as [[w|e] b1] eqn:H1;
      [|discriminate].
    pose proof (ReadVarInt_small_plain _ _ _ Hp H1) as Hs1.
    destruct (util.ReadVarInt b1) as [[h|e] b2] eqn:H2; [|discriminate].
    pose proof (ReadVarInt_spent _ _ _ Hs1 H2) as Hs2.
    destruct (util.ReadVarInt b2) as [[pw|e] b3] eqn:H3; [|discriminate].
    pose proof (ReadVarInt_spent _ _ _ Hs2 H3) as Hs3.
    destruct (util.ReadVarInt b3) as [[ph|e] b4] eqn:H4; [|discriminate].
    pose proof (ReadVarInt_spent _ _ _ Hs3 H4) as Hs4.
    inversion H; subst. now apply spent_rd.
  - unfold ParseExitStatusRequest, with_bufio, dec_bind, dec_ret in H.
    pose proof (small_plain_NewReader bs Hlen) as Hp.
    destruct (util.ReadVarInt (bufio_NewReader (Reader bs false))) as [[w|e] b1] eqn:H1;
      [|discriminate].
    pose proof (ReadVarInt_small_plain _ _ _ Hp H1) as Hs1.
    inversion H; subst. now apply spent_rd.
  - unfold ParseX11Request, dec_bind, dec_ret in H.
    destruct (binary_Read_bool (Reader bs false)) as [[v|e] b0] eqn:H0; [|discriminate].
    apply binary_Read_bool_ok_inv in H0 as [Hk0 Hl0]. cbn [buffered unread] in Hk0, Hl0.
    destruct (util.ParseSSHString b0) as [[p|e] b1] eqn:Hp1; [|discriminate].
    apply ParseSSHString_ok_inv in Hp1 as [Hk1 Hl1].
    destruct (util.ParseSSHString b1) as [[q|e] b2] eqn:Hp2; [|discriminate].
    apply ParseSSHString_ok_inv in Hp2 as [Hk2 Hl2].
    pose proof (small_plain_of b2 ltac:(congruence) ltac:(lia)) as Hp.
    unfold with_bufio in H.
    destruct (util.ReadVarInt (bufio_NewReader b2)) as [[n|e] b3] eqn:H3; [|discriminate].
    pose proof (ReadVarInt_small_plain _ _ _ Hp H3) as Hs3.
    inversion H; subst. now apply spent_rd.
Qed.

Lemma varint_decoders_drain_plain_reader_witness :
  ParseExitStatusRequest (Reader [x07; x62; x00; x00; x00; x05] false)
  = (Ok (ExitStatus (ExitStatusRequest.Build 7)), Reader [] false)
  /\ Reader [] false = Reader [] false.
Proof.
  split; [reflexivity|].
  apply (varint_decoders_drain_plain_reader [x07; x62; x00; x00; x00; x05]
           (ExitStatus (ExitStatusRequest.Build 7)) (Reader [] false));
    [vm_compute; lia | right; left; reflexivity].
Defined.

(** X15: over a reader that is itself buffered the pty decoder reads the
    layout it is written for (the name, the four varints, the modes, with
    strings shorter than 2^32 bytes) back into the request and stops right
    after it. *)
Theorem ParsePtyRequest_over_buffered_reader (r : PtyRequest.t)
    (e1 e2 e3 e4 rest : list byte) :
  short (PtyRequest.Term r) ->
  short (PtyRequest.EncodedTerminalModes r) ->
  util.AppendVarInt [] (PtyRequest.CharWidth r) = Return e1 ->
  util.AppendVarInt [] (PtyRequest.CharHeight r) = Return e2 ->
  util.AppendVarInt [] (PtyRequest.PixelWidth r) = Return e3 ->
  util.AppendVarInt [] (PtyRequest.PixelHeight r) = Return e4 ->
  ParsePtyRequest
    (Reader (PtyRequest_layout (PtyRequest.Term r) e1 e2 e3 e4
               (PtyRequest.EncodedTerminalModes r) ++ rest) true)
  = (Ok (Pty r), Reader rest true).
Proof.
  intros Ht Hm H1 H2 H3 H4. unfold ParsePtyRequest, PtyRequest_layout, dec_bind, dec_ret.
  rewrite <- !app_assoc. rewrite ParseSSHString_wire_string by exact Ht.
  unfold with_bufio, bufio_NewReader, dec_bind, dec_ret.
  rewrite (ReadVarInt_through _ _ _ H1), (ReadVarInt_through _ _ _ H2),
    (ReadVarInt_through _ _ _ H3), (ReadVarInt_through _ _ _ H4).
  cbn [rd]. rewrite ParseSSHString_wire_string by exact Hm.
  now destruct r.
Qed.

Lemma ParsePtyRequest_over_buffered_reader_witness :
  ParsePtyRequest
    (Reader (PtyRequest_layout "xterm" [x40; x50] [x18] [x42; x80] [x41; xe0] ""
               ++ [x07]) true)
  = (Ok (Pty pty_xterm), Reader [x07] true).
Proof.
  apply (ParsePtyRequest_over_buffered_reader pty_xterm
           [x40; x50] [x18] [x42; x80] [x41; xe0] [x07]);
    reflexivity.
Defined.

(** X16: the window-change decoder reads four varints written one after
    the other back into the four dimensions, over either kind of reader;
    over a buffered one it stops right after them. *)
Theorem ParseWindowChangeRequest_reads_four_varints (r : WindowChangeRequest.t)
    (e1 e2 e3 e4 rest : list byte) (k : bool) :
  util.AppendVarInt [] (WindowChangeRequest.CharWidth r) = Return e1 ->
  util.AppendVarInt [] (WindowChangeRequest.CharHeight r) = Return e2 ->
  util.AppendVarInt [] (WindowChangeRequest.PixelWidth r) = Return e3 ->
  util.AppendVarInt [] (WindowChangeRequest.PixelHeight r) = Return e4 ->
  fst (ParseWindowChangeRequest (Reader (e1 ++ e2 ++ e3 ++ e4 ++ rest) k))
  = Ok (WindowChange r)
  /\ ParseWindowChangeRequest (Reader (e1 ++ e2 ++ e3 ++ e4 ++ rest) true)
     = (Ok (WindowChange r), Reader rest true).
Proof.
  intros H1 H2 H3 H4. split.
  - unfold ParseWindowChangeRequest, with_bufio, dec_bind, dec_ret.
    destruct (ReadVarInt_AppendVarInt _ e1 (e2 ++ e3 ++ e4 ++ rest)
                (bufio_NewReader (Reader (e1 ++ e2 ++ e3 ++ e4 ++ rest) k)) H1 eq_refl)
      as (b1 & -> & Hp1).
    destruct (ReadVarInt_AppendVarInt _ e2 (e3 ++ e4 ++ rest) b1 H2 Hp1)
      as (b2 & -> & Hp2).
    destruct (ReadVarInt_AppendVarInt _ e3 (e4 ++ rest) b2 H3 Hp2)
      as (b3 & -> & Hp3).
    destruct (ReadVarInt_AppendVarInt _ e4 rest b3 H4 Hp3) as (b4 & -> & Hp4).
    now destruct r.
  - unfold ParseWindowChangeRequest, with_bufio, bufio_NewReader, dec_bind, dec_ret.
    rewrite (ReadVarInt_through _ _ _ H1), (ReadVarInt_through _ _ _ H2),
      (ReadVarInt_through _ _ _ H3), (ReadVarInt_through _ _ _ H4).
    now destruct r.
Qed.

Lemma ParseWindowChangeRequest_reads_four_varints_witness :
  fst (ParseWindowChangeRequest
         (Reader ([x40; x50] ++ [x18] ++ [x42; x80] ++ [x41; xe0] ++ [x07]) false))
  = Ok (WindowChange window_80_24)
  /\ ParseWindowChangeRequest
       (Reader ([x40; x50] ++ [x18] ++ [x42; x80] ++ [x41; xe0] ++ [x07]) true)
     = (Ok (WindowChange window_80_24), Reader [x07] true).
Proof.
  apply (ParseWindowChangeRequest_reads_four_varints window_80_24
           [x40; x50] [x18] [x42; x80] [x41; xe0] [x07] false);
    reflexivity.
Defined.

Lemma nonzero_flag_byte (c : bool) : nonzero (flag_byte c) = c.
Proof. now destruct c. Qed.

(** X17: the exit-signal decoder reads the layout it is written for (the
    name, the flag byte, the message, the language tag, one after the other)
    back into the request, over either kind of reader, and stops right
    after it. *)
Theorem ParseExitSignalRequest_reads_its_layout (r : ExitSignalRequest.t)
    (rest : list byte) (k : bool) :
  short (ExitSignalRequest.SignalNameWithoutSig r) ->
  short (ExitSignalRequest.ErrorMessageUTF8 r) ->
  short (ExitSignalRequest.LanguageTag r) ->
  ParseExitSignalRequest (Reader (ExitSignalRequest_layout r ++ rest) k)
  = (Ok (ExitSignal r), Reader rest k).
Proof.
  intros Hs He Hl.
  unfold ParseExitSignalRequest, ExitSignalRequest_layout,
    ParseSSHString_or_ErrAdvanceTooFar, dec_bind, dec_ret.
  rewrite <- !app_assoc. rewrite ParseSSHString_wire_string by exact Hs.
  cbn [app binary_Read_bool unread]. unfold advance. cbn [unread buffered skipn].
  rewrite skipn_O.
  rewrite ParseSSHString_wire_string by exact He.
  rewrite ParseSSHString_wire_string by exact Hl.
  fold (nonzero (flag_byte (ExitSignalRequest.CoreDumped r))).
  rewrite nonzero_flag_byte. now destruct r.
Qed.

Lemma ParseExitSignalRequest_reads_its_layout_witness :
  ParseExitSignalRequest
    (Reader (ExitSignalRequest_layout exit_signal_KILL ++ [x07]) false)
  = (Ok (ExitSignal exit_signal_KILL), Reader [x07] false).
Proof.
  apply (ParseExitSignalRequest_reads_its_layout exit_signal_KILL [x07] false);
    vm_compute; reflexivity.
Defined.

(** ** The envelope, there and back *)

Lemma ParseX11Request_image (r : X11Request.t) (enc : list byte) (k : bool) :
  short (X11Request.X11AuthenticationProtocol r) ->
  short (X11Request.X11AuthenticationCookie r) ->
  util.AppendVarInt [] (X11Request.X11ScreenNumber r) = Return enc ->
  fst (ParseX11Request (Reader (X11_image r enc) k)) = Ok (X11 r).
Proof.
  intros Hp Hc Henc.
  unfold ParseX11Request, dec_bind, dec_ret, X11_image.
  rewrite <- !app_assoc. cbn [app binary_Read_bool unread].
  unfold advance. cbn [unread buffered skipn]. rewrite skipn_O.
  rewrite ParseSSHString_wire_string by exact Hp.
  rewrite ParseSSHString_wire_string by exact Hc.
  pose proof (with_bufio_ReadVarInt _ _ k Henc) as Hv.
  destruct (with_bufio util.ReadVarInt (Reader enc k)) as [[v|e] buf'];
    cbn [fst] in Hv; inversion Hv; subst.
  destruct r as [[|] p c v]; reflexivity.
Qed.

(** What a carried request looks like on the wire: its [Length] is the
    length of an image that its [Write] puts into any buffer with room,
    that its decoder reads back, and whose tag the registry resolves to
    that decoder. *)
Lemma carried_image (c : ChannelRequest.t) :
  carried c ->
  exists pimg,
    ChannelRequest.Length c = Return (length pimg)
    /\ (forall dst, length pimg <= length dst ->
          ChannelRequest.Write c dst
          = Return (Written (length pimg) None (pimg ++ skipn (length pimg) dst)))
    /\ fst (decoder_of c (Reader pimg false)) = Ok c
    /\ ChannelRequestParseFuncs !! ChannelRequest.RequestTypeStr c = Some (decoder_of c)
    /\ short (ChannelRequest.RequestTypeStr c).
Proof.
  destruct c as [r|r|r|r|r|r|r|r|r]; cbn [carried]; try contradiction; intros Hc.
  - destruct Hc as (Hp & Hk & Hn).
    destruct (util.VarIntLen (X11Request.X11ScreenNumber r)) as [n|] eqn:Hlen.
    2:{ unfold util.VarIntLen in Hlen.
        repeat match type of Hlen with
               | context [if ?c then _ else _] => destruct c eqn:?
               end; try discriminate.
        apply N.ltb_ge in Heqb2. lia. }
    destruct (AppendVarInt_length [] _ _ Hlen) as (enc & Henc & Hl). cbn [app] in Henc.
    exists (X11_image r enc).
    assert (HL : X11Request.Length r = Return (length (X11_image r enc))).
    { unfold X11Request.Length. rewrite Hlen. cbn [run_bind]. f_equal.
      unfold X11_image. rewrite !length_app, !length_wire_string, Hl.
      cbn [length]. lia. }
    split; [exact HL|]. split.
    { intros dst Hfit. cbn [ChannelRequest.Write].
      destruct (X11Request_Write_image r dst enc _ HL Henc Hfit) as (_ & Hw).
      exact Hw. }
    split; [now apply ParseX11Request_image|].
    split; [reflexivity | vm_compute; reflexivity].
  - destruct r. exists []. repeat split; vm_compute; reflexivity.
  - destruct r as [s]. cbn in Hc. exists (wire_string s).
    split; [cbv [ChannelRequest.Length ExecRequest.Length ExecRequest.Command
                 SubsystemRequest.Length SubsystemRequest.SubsystemName
                 SignalRequest.Length SignalRequest.SignalNameWithoutSig];
            now rewrite length_wire_string|].
    split.
    { intros dst Hfit.
      cbv [ChannelRequest.Write ExecRequest.Write ExecRequest.Command
           SubsystemRequest.Write SubsystemRequest.SubsystemName
           SignalRequest.Write SignalRequest.SignalNameWithoutSig].
      now apply WriteSSHString_fits. }
    split.
    { cbn [decoder_of]. unfold ParseExecRequest, ParseSSHString_or_ErrAdvanceTooFar, dec_bind.
      rewrite <- (app_nil_r (wire_string s)), ParseSSHString_wire_string by exact Hc.
      reflexivity. }
    split; [reflexivity | vm_compute; reflexivity].
  - destruct r as [s]. cbn in Hc. exists (wire_string s).
    split; [cbv [ChannelRequest.Length ExecRequest.Length ExecRequest.Command
                 SubsystemRequest.Length SubsystemRequest.SubsystemName
                 SignalRequest.Length SignalRequest.SignalNameWithoutSig];
            now rewrite length_wire_string|].
    split.
    { intros dst Hfit.
      cbv [ChannelRequest.Write ExecRequest.Write ExecRequest.Command
           SubsystemRequest.Write SubsystemRequest.SubsystemName
           SignalRequest.Write SignalRequest.SignalNameWithoutSig].
      now apply WriteSSHString_fits. }
    split.
    { cbn [decoder_of].
      unfold ParseSubsystemRequest, ParseSSHString_or_ErrAdvanceTooFar, dec_bind.
      rewrite <- (app_nil_r (wire_string s)), ParseSSHString_wire_string by exact Hc.
      reflexivity. }
    split; [reflexivity | vm_compute; reflexivity].
  - destruct r as [s]. cbn in Hc. exists (wire_string s).
    split; [cbv [ChannelRequest.Length ExecRequest.Length ExecRequest.Command
                 SubsystemRequest.Length SubsystemRequest.SubsystemName
                 SignalRequest.Length SignalRequest.SignalNameWithoutSig];
            now rewrite length_wire_string|].
    split.
    { intros dst Hfit.
      cbv [ChannelRequest.Write ExecRequest.Write ExecRequest.Command
           SubsystemRequest.Write SubsystemRequest.SubsystemName
           SignalRequest.Write SignalRequest.SignalNameWithoutSig].
      now apply WriteSSHString_fits. }
    split.
    { cbn [decoder_of].
      unfold ParseSignalRequest, ParseSSHString_or_ErrAdvanceTooFar, dec_bind.
      rewrite <- (app_nil_r (wire_string s)), ParseSSHString_wire_string by exact Hc.
      reflexivity. }
    split; [reflexivity | vm_compute; reflexivity].
Qed.

(** X18: an envelope around a shell, exec, subsystem, signal or X11 request
    whose fields the wire format can hold, written into a fresh buffer of
    its [Length] and decoded from the request-type attribute onward, comes
    back as the envelope it was, reply flag included. *)
Theorem envelope_roundtrip_of_carried (m : ChannelRequestMessage.t) :
  carried (ChannelRequestMessage.request m) ->
  envelope_roundtrip m = Return (Ok m).
Proof.
  intros Hc. destruct m as [w c]. cbn [ChannelRequestMessage.request] in Hc.
  destruct (carried_image c Hc) as (pimg & HL & Hw & Hdec & Hreg & Htag).
  set (img := ([SSH_MSG_CHANNEL_REQUEST] ++ wire_string (ChannelRequest.RequestTypeStr c))
                ++ [flag_byte w]).
  assert (Himg : length img = 1 + util.SSHStringLen (ChannelRequest.RequestTypeStr c) + 1)
    by (unfold img; sizes).
  unfold envelope_roundtrip, ChannelRequestMessage.Length.
  cbn [ChannelRequestMessage.request]. rewrite HL. cbn [run_bind].
  rewrite <- Himg.
  assert (Hmake : length (make (length img + length pimg)) = length img + length pimg)
    by (unfold make; apply repeat_length).
  rewrite (envelope_header (ChannelRequestMessage.Build w c)
             (make (length img + length pimg)) (length pimg) HL)
    by (cbn [ChannelRequestMessage.request]; rewrite Hmake, Himg; lia).
  cbv zeta. cbn [ChannelRequestMessage.request ChannelRequestMessage.wantReply].
  fold img.
  rewrite (step_slice img _ pimg (length img) _ eq_refl) by (exact Hw || lia).
  cbn [run_bind failure count mem].
  rewrite filled_all by (rewrite Hmake, length_app; reflexivity).
  rewrite <- length_app, firstn_all.
  unfold img. rewrite <- !app_assoc. cbn [app skipn]. rewrite skipn_O.
  unfold ParseRequestMessage, bytes_NewReader, dec_bind, dec_ret.
  rewrite ParseSSHString_wire_string by exact Htag.
  cbn [binary_Read_bool unread]. unfold advance. cbn [unread buffered skipn].
  rewrite skipn_O, Hreg.
  fold (nonzero (flag_byte w)). rewrite nonzero_flag_byte.
  destruct (decoder_of c (Reader pimg false)) as [[c'|e] b];
    cbn [fst] in Hdec; inversion Hdec; subst. reflexivity.
Qed.

Lemma envelope_roundtrip_of_carried_witness :
  envelope_roundtrip
    (ChannelRequestMessage.Build true (X11 (X11Request.Build false "MIT" "c0" 70000)))
  = Return (Ok (ChannelRequestMessage.Build true
                  (X11 (X11Request.Build false "MIT" "c0" 70000)))).
Proof.
  apply (envelope_roundtrip_of_carried
           (ChannelRequestMessage.Build true
              (X11 (X11Request.Build false "MIT" "c0" 70000)))).
  cbn. repeat split; vm_compute; reflexivity.
Defined.

(** X19: whatever the payload, the envelope written into a buffer with
    room starts with the message-type byte, the payload's own tag as a
    length-prefixed string and the reply flag as one byte, 1 or 0. *)
Theorem envelope_Write_header (m : ChannelRequestMessage.t) (buf : list byte)
    (len : nat) :
  ChannelRequestMessage.Length m = Return len ->
  len <= length buf ->
  exists w,
    ChannelRequestMessage.Write m buf = Return w
    /\ failure w = None
    /\ firstn (6 + String.length (ChannelRequest.RequestTypeStr
                                    (ChannelRequestMessage.request m))) (mem w)
       = [SSH_MSG_CHANNEL_REQUEST]
           ++ wire_string (ChannelRequest.RequestTypeStr (ChannelRequestMessage.request m))
           ++ [flag_byte (ChannelRequestMessage.wantReply m)].
Proof.
  intros HL Hfit. unfold ChannelRequestMessage.Length in HL.
  destruct (ChannelRequest.Length (ChannelRequestMessage.request m)) as [n|] eqn:Hn;
    cbn [run_bind] in HL; [|discriminate].
  inversion HL; subst len. clear HL.
  rewrite (envelope_header m buf n Hn Hfit). cbv zeta.
  set (img := ([SSH_MSG_CHANNEL_REQUEST]
                ++ wire_string (ChannelRequest.RequestTypeStr
                                  (ChannelRequestMessage.request m)))
               ++ [flag_byte (ChannelRequestMessage.wantReply m)]).
  assert (Himg : length img
                 = 6 + String.length (ChannelRequest.RequestTypeStr
                                        (ChannelRequestMessage.request m)))
    by (unfold img; sizes).
  destruct (Write_room (ChannelRequestMessage.request m)
              (skipn (length img) buf) n Hn) as (w2 & Hw2 & Hf2 & _ & _).
  { rewrite length_skipn. sizes. }
  rewrite (on_slice_filled _ _ img buf w2 eq_refl) by (exact Hw2 || sizes).
  cbn [run_bind failure count mem]. rewrite Hf2.
  eexists. split; [reflexivity|]. cbn [failure mem]. split; [reflexivity|].
  rewrite <- Himg, take_app_length. unfold img. now rewrite <- app_assoc.
Qed.

Lemma envelope_Write_header_witness :
  exists w,
    ChannelRequestMessage.Write
      (ChannelRequestMessage.Build true (ExitStatus (ExitStatusRequest.Build 3)))
      (make 16) = Return w
    /\ failure w = None
    /\ firstn 12 (mem w) = [x62] ++ wire_string "signal" ++ [x01].
Proof.
  apply (envelope_Write_header
           (ChannelRequestMessage.Build true (ExitStatus (ExitStatusRequest.Build 3)))
           (make 16) 13); [reflexivity | vm_compute; lia].
Defined.

(** X20: on a stream that starts with a registered tag shorter than 2^32
    bytes and one more byte, the envelope decoder is the registered decoder
    run on what follows: its payload with the flag the byte decodes to, or
    its error, and in either case its reader. *)
Theorem ParseRequestMessage_dispatches (requestType : string)
    (parseFunc : decoder io_Reader ChannelRequest.t) (b : byte)
    (rest : list byte) (k : bool) :
  short requestType ->
  ChannelRequestParseFuncs !! requestType = Some parseFunc ->
  ParseRequestMessage (Reader (wire_string requestType ++ b :: rest) k)
  = match parseFunc (Reader rest k) with
    | (Ok c, buf') => (Ok (ChannelRequestMessage.Build (nonzero b) c), buf')
    | (Err e, buf') => (Err e, buf')
    end.
Proof.
  intros Hshort Hreg. unfold ParseRequestMessage, dec_bind, dec_ret.
  rewrite ParseSSHString_wire_string by exact Hshort.
  cbn [binary_Read_bool unread]. unfold advance. cbn [unread buffered skipn].
  rewrite skipn_O, Hreg. reflexivity.
Qed.

Lemma ParseRequestMessage_dispatches_witness :
  ParseRequestMessage
    (Reader (wire_string "subsystem" ++ x02 :: wire_string "sftp" ++ [x07]) true)
  = (Ok (ChannelRequestMessage.Build true (Subsystem (SubsystemRequest.Build "sftp"))),
     Reader [x07] true).
Proof.
  rewrite (ParseRequestMessage_dispatches "subsystem" ParseSubsystemRequest x02
             (wire_string "sftp" ++ [x07]) true);
    [reflexivity | vm_compute; reflexivity | reflexivity].
Defined.

(** ** Instances of the round trips and of the failure classes *)

Lemma roundtrip_X11_witness :
  roundtrip (X11 (X11Request.Build true "MIT-MAGIC-COOKIE-1" "c0ffee" 16384))
  = Return (Ok (X11 (X11Request.Build true "MIT-MAGIC-COOKIE-1" "c0ffee" 16384))).
Proof.
  apply (roundtrip_X11 (X11Request.Build true "MIT-MAGIC-COOKIE-1" "c0ffee" 16384));
    vm_compute; reflexivity.
Defined.

Lemma roundtrip_ExitStatus_witness :
  roundtrip (ExitStatus (ExitStatusRequest.Build 1073741824))
  = Return (Ok (ExitStatus (ExitStatusRequest.Build 1073741824))).
Proof.
  apply (roundtrip_ExitStatus (ExitStatusRequest.Build 1073741824)).
  vm_compute. reflexivity.
Defined.

Lemma ParseRequestMessage_error_inv_witness :
  util.ParseSSHString frobnicate_only = (Err io_EOF, Reader [] false)
  \/ (exists requestType buf1,
        util.ParseSSHString frobnicate_only = (Ok requestType, buf1)
        /\ (binary_Read_bool buf1 = (Err io_EOF, Reader [] false)
            \/ exists wantReply buf2,
                 binary_Read_bool buf1 = (Ok wantReply, buf2)
                 /\ ((ChannelRequestParseFuncs !! requestType = None
                      /\ io_EOF = Errorf_invalid_request_type requestType
                      /\ Reader [] false = buf2)
                     \/ exists parseFunc,
                          ChannelRequestParseFuncs !! requestType = Some parseFunc
                          /\ parseFunc buf2 = (Err io_EOF, Reader [] false)))).
Proof.
  apply (ParseRequestMessage_error_inv frobnicate_only (Reader [] false) io_EOF).
  reflexivity.
Defined.

Lemma registry_resolves_exactly_seven_witness :
  is_Some (ChannelRequestParseFuncs !! "window-change").
Proof.
  apply (proj2 (registry_resolves_exactly_seven "window-change")).
  cbn. tauto.
Defined.
